(** * Concurrent file downloader: worker, download widget and registry

    A shallow embedding of [concurrent-file-downloader.py].

    - [DownloadThread.run] is a computation in a state-and-exception monad
      over a [world] made of the file system and the trace of the steps the
      worker has performed.  Everything the worker cannot decide by itself
      (the HTTP exchange, I/O faults, the moment at which the GUI thread
      calls [interrupt]) comes from an [environment].
    - The progress percentage is computed as Python computes it: in IEEE 754
      binary64 arithmetic, through the executable specification of the
      Standard Library ([SpecFloat]).
    - [DownloadWidget] and [DownloaderApp] are records updated by pure
      functions, one per method.

    The definitions come first: the program, then the vocabulary of the
    statements and a few scenarios.  The properties follow: the registry,
    the accuracy of binary64 arithmetic on percentages, the worker. *)

From Stdlib Require Import ZArith List String Ascii Lia Bool DecimalString.
From Stdlib Require Import Floats.SpecFloat.
From stdpp Require Import base gmap strings.

Open Scope string_scope.
Open Scope Z_scope.

(** ** Python numbers: [int((downloaded / total_size) * 100)] *)

Module Py.

(** Python floats are IEEE 754 binary64. *)
Definition prec : Z := 53.
Definition emax : Z := 1024.

(** [float(n)]: exact for [|n| < 2^53], rounded to nearest even beyond. *)
Definition float_of_int (n : Z) : spec_float :=
  binary_normalize prec emax n 0 false.

(** [a / b] on two ints (true division).  Python rounds the exact quotient
    once; converting both operands first gives the same float whenever the
    conversions are exact, that is for operands below [2^53]. *)
Definition true_div (a b : Z) : spec_float :=
  SFdiv prec emax (float_of_int a) (float_of_int b).

(** [x * n] for a float [x] and an int [n]: [n] is converted first. *)
Definition mul_int (x : spec_float) (n : Z) : spec_float :=
  SFmul prec emax x (float_of_int n).

(** [int(x)]: truncation toward zero; raises on infinities and NaN. *)
Definition int_of_float (x : spec_float) : option Z :=
  match x with
  | S754_zero _ => Some 0
  | S754_finite s m e =>
      let a := if 0 <=? e then Zpos m * 2 ^ e else Zpos m / 2 ^ (- e) in
      Some (cond_Zopp s a)
  | S754_infinity _ | S754_nan => None
  end.

(** [str(n)] for a natural number. *)
Definition str_of_nat (n : nat) : string :=
  NilEmpty.string_of_uint (Nat.to_uint n).

(** [c.isspace()] on the ASCII range: TAB, LF, VT, FF, CR, the separators
    FS, GS, RS, US and the space. *)
Definition isspace (c : ascii) : bool :=
  let n := nat_of_ascii c in
  ((9 <=? n)%nat && (n <=? 13)%nat) || ((28 <=? n)%nat && (n <=? 32)%nat).

Fixpoint lstrip (s : string) : string :=
  match s with
  | EmptyString => EmptyString
  | String c s' => if isspace c then lstrip s' else s
  end.

Fixpoint rstrip (s : string) : string :=
  match s with
  | EmptyString => EmptyString
  | String c s' =>
      match rstrip s' with
      | EmptyString => if isspace c then EmptyString else String c EmptyString
      | r => String c r
      end
  end.

(** [s.strip()] *)
Definition strip (s : string) : string := rstrip (lstrip s).

(** [s.split(sep)[0]]: the part of [s] before the first [sep]. *)
Fixpoint split_head (sep : ascii) (s : string) : string :=
  match s with
  | EmptyString => EmptyString
  | String c s' => if Ascii.eqb c sep then EmptyString else String c (split_head sep s')
  end.

(** [os.path.basename(p)] (posixpath): what follows the last slash. *)
Fixpoint basename (p : string) : string :=
  match p with
  | EmptyString => EmptyString
  | String c p' =>
      if Ascii.eqb c "/"%char then basename p'
      else if existsb (Ascii.eqb "/"%char) (list_ascii_of_string p') then basename p'
      else p
  end.

(** Truth value of a string: [not s] holds for the empty string only. *)
Definition falsy (s : string) : bool :=
  match s with EmptyString => true | _ => false end.

End Py.

(** ** Signals *)

Inductive event :=
| progress_signal (id : string) (progress : Z)
| finished_signal (id : string)
| error_signal (id : string) (error_message : string).


(** ** The world of a worker *)

Abbreviation bytes := (list Byte.byte).

(** The three places where [run] reads [self._is_interrupted]. *)
Inductive check_site :=
| BulkWriteCheck    (* line 56, before [f.write(response.content)] *)
| ChunkCheck        (* line 61, first statement of the loop body *)
| CompletionCheck.  (* line 68, before [finished_signal.emit] *)

(** What a worker does, one entry per step, in order. *)
Inductive action :=
| AFlag (site : check_site) (observed : bool)
| AOpen (path : string)
| AWrite (path : string) (data : bytes)
| AEmit (e : event)
| ARemove (path : string).

Record world := World {
  fs : gmap string bytes;     (* the files that exist, with their contents *)
  trace : list action         (* the steps of the worker so far *)
}.

(** Exceptions, by the [except] clause that catches them. *)
Inductive exn :=
| InterruptedError (msg : string)
| Exception (msg : string).

Inductive result (A : Type) :=
| Ok (a : A)
| Raise (e : exn).
Arguments Ok {A} a.
Arguments Raise {A} e.

Definition M (A : Type) : Type := world -> result A * world.

Definition ret {A} (a : A) : M A := fun w => (Ok a, w).

Definition raise {A} (e : exn) : M A := fun w => (Raise e, w).

Definition bind {A B} (c : M A) (k : A -> M B) : M B :=
  fun w =>
    match c w with
    | (Ok a, w') => k a w'
    | (Raise e, w') => (Raise e, w')
    end.

Notation "x <- c ;; k" := (bind c (fun x => k))
  (at level 100, c at next level, right associativity).
Notation "c ;;; k" := (bind c (fun _ => k))
  (at level 100, right associativity).

(** One step of the worker: the action is appended to the trace. *)
Definition step (a : action) (f : gmap string bytes -> gmap string bytes) : M unit :=
  fun w => (Ok tt, World (f (fs w)) (trace w ++ [a])%list).

Definition events_of (t : list action) : list event :=
  flat_map (fun a => match a with AEmit e => [e] | _ => [] end) t.

Definition writes_of (t : list action) : list bytes :=
  flat_map (fun a => match a with AWrite _ d => [d] | _ => [] end) t.

(** ** The environment of a worker *)

(** [response.headers.get('content-length', 0)] followed by [int(...)]:
    the header is absent, or holds text that [int] parses, or text on which
    [int] raises [ValueError]. *)
Inductive header :=
| HeaderAbsent
| HeaderInt (n : Z)
| HeaderInvalid (raw : string).

(** What the body iterator yields next: a chunk, or a network fault. *)
Inductive chunk :=
| Data (data : bytes)
| StreamError (msg : string).

Record response := Response {
  status_error : option string;   (* what [raise_for_status()] raises, if anything *)
  content_length : header;
  body : list chunk
}.

Record environment := Environment {
  get_result : string + response;        (* [requests.get] raises or returns *)
  open_error : option string;            (* [open(save_path, 'wb')] raises *)
  write_error : option (nat * string);   (* the [k]-th [f.write] raises *)
  interrupt_at : option nat              (* [interrupt()] runs once the worker
                                            has performed that many steps *)
}.

(** ** The download thread *)

Module DownloadThread.

Record t := Make {
  url : string;
  save_path : string;
  download_id : string;
  _is_interrupted : bool;
  starts : nat               (* number of effective calls of [start()] *)
}.

(** [__init__]; the identifier is the fresh [uuid4] drawn for it. *)
Definition init (url save_path uuid : string) : t :=
  Make url save_path uuid false 0.

(** [interrupt] *)
Definition interrupt (self : t) : t :=
  Make (url self) (save_path self) (download_id self) true (starts self).

(** [QThread.start] *)
Definition start (self : t) : t :=
  Make (url self) (save_path self) (download_id self) (_is_interrupted self)
       (S (starts self)).

(** The value of [self._is_interrupted] seen by a step that comes after
    [n] earlier steps of the worker. *)
Definition flag_at (self : t) (env : environment) (n : nat) : bool :=
  _is_interrupted self ||
  match interrupt_at env with
  | Some k => (k <=? n)%nat
  | None => false
  end.

Definition read_flag (self : t) (env : environment) (site : check_site) : M bool :=
  fun w =>
    let b := flag_at self env (length (trace w)) in
    (Ok b, World (fs w) (trace w ++ [AFlag site b])%list).

Definition emit (e : event) : M unit := step (AEmit e) id.

(** [requests.get(self.url, stream=True)] *)
Definition requests_get (env : environment) : M response :=
  match get_result env with
  | inl msg => raise (Exception msg)
  | inr r => ret r
  end.

(** [response.raise_for_status()] *)
Definition raise_for_status (r : response) : M unit :=
  match status_error r with
  | Some msg => raise (Exception msg)
  | None => ret tt
  end.

(** [int(response.headers.get('content-length', 0))] *)
Definition total_size_of (r : response) : M Z :=
  match content_length r with
  | HeaderAbsent => ret 0
  | HeaderInt n => ret n
  | HeaderInvalid raw =>
      raise (Exception ("invalid literal for int() with base 10: '" ++ raw ++ "'"))
  end.

(** [open(self.save_path, 'wb')]: creates or truncates the file. *)
Definition open_wb (env : environment) (path : string) : M unit :=
  match open_error env with
  | Some msg => raise (Exception msg)
  | None => step (AOpen path) (fun m => <[path := []]> m)
  end.

(** The [k]-th call of [f.write(data)] *)
Definition f_write (env : environment) (path : string) (k : nat) (data : bytes) : M unit :=
  match write_error env with
  | Some (j, msg) =>
      if (j =? k)%nat then raise (Exception msg)
      else step (AWrite path data) (fun m => <[path := (default [] (m !! path) ++ data)%list]> m)
  | None => step (AWrite path data) (fun m => <[path := (default [] (m !! path) ++ data)%list]> m)
  end.

(** [response.content]: the whole body, joined; a network fault raises. *)
Fixpoint content (chunks : list chunk) : M bytes :=
  match chunks with
  | [] => ret []
  | StreamError msg :: _ => raise (Exception msg)
  | Data d :: rest => tl <- content rest ;; ret (d ++ tl)%list
  end.

(** [int((downloaded / total_size) * 100)]; [None] when [int] raises, which
    takes a quotient that is infinite or not a number. *)
Definition percent (downloaded total_size : Z) : option Z :=
  Py.int_of_float (Py.mul_int (Py.true_div downloaded total_size) 100).

Definition interrupted_message : string := "Download interrupted by user".

(** Lines 60-66: the loop over [response.iter_content(chunk_size=4096)];
    [k] counts the chunks already written. *)
Fixpoint iter_content_loop (self : t) (env : environment) (total_size : Z)
    (chunks : list chunk) (k : nat) (downloaded : Z) : M unit :=
  match chunks with
  | [] => ret tt
  | StreamError msg :: _ => raise (Exception msg)
  | Data data :: rest =>
      b <- read_flag self env ChunkCheck ;;
      if b then raise (InterruptedError interrupted_message)
      else
        let downloaded := downloaded + Z.of_nat (length data) in
        f_write env (save_path self) k data ;;;
        match percent downloaded total_size with
        | None => raise (Exception "cannot convert float infinity to integer")
        | Some progress =>
            emit (progress_signal (download_id self) progress) ;;;
            iter_content_loop self env total_size rest (S k) downloaded
        end
  end.

(** Lines 49-69: the body of the [try] statement. *)
Definition try_body (self : t) (env : environment) : M unit :=
  response <- requests_get env ;;
  raise_for_status response ;;;
  total_size <- total_size_of response ;;
  open_wb env (save_path self) ;;;
  (if total_size =? 0 then
     b <- read_flag self env BulkWriteCheck ;;
     if negb b then
       data <- content (body response) ;;
       f_write env (save_path self) 0 data
     else ret tt
   else
     iter_content_loop self env total_size (body response) 0 0) ;;;
  b <- read_flag self env CompletionCheck ;;
  if negb b then emit (finished_signal (download_id self)) else ret tt.

(** Lines 73-75: [if os.path.exists(p): os.remove(p)].  The file was closed
    when the [with] block was left; removing it is taken to succeed. *)
Definition cleanup (path : string) : M unit :=
  fun w =>
    match fs w !! path with
    | Some _ => step (ARemove path) (fun m => delete path m) w
    | None => (Ok tt, w)
    end.

(** [run]: the [try] statement with its two handlers. *)
Definition run (self : t) (env : environment) : M unit :=
  fun w =>
    match try_body self env w with
    | (Ok tt, w') => (Ok tt, w')
    | (Raise (InterruptedError msg), w') =>
        (emit (error_signal (download_id self) msg) ;;;
         cleanup (save_path self)) w'
    | (Raise (Exception msg), w') =>
        emit (error_signal (download_id self) msg) w'
    end.

(** A whole execution of the worker, from a file system and no step
    performed yet: the world it leaves behind, and what it emitted. *)
Definition execute (self : t) (env : environment) (fs0 : gmap string bytes) : world :=
  snd (run self env (World fs0 [])).

Definition emitted (self : t) (env : environment) (fs0 : gmap string bytes) : list event :=
  events_of (trace (execute self env fs0)).

End DownloadThread.

(** ** The download widget *)

Module DownloadWidget.

Record t := Make {
  url : string;
  save_path : string;
  thread : option DownloadThread.t;
  is_started : bool;
  is_finished : bool;
  download_id : string;
  url_label : string;
  progress_bar : Z;            (* value of the bar, range 0..100 *)
  interrupt_button : bool;     (* enabled? *)
  status_label : string
}.

(** [QProgressBar.setValue]: a value outside the range is ignored. *)
Definition setValue (v : Z) (bar : Z) : Z :=
  if (0 <=? v) && (v <=? 100) then v else bar.

(** [__init__], with [_setup_ui] and [_setup_thread]; [uuid] is the
    identifier drawn for the new thread. *)
Definition init (url save_path uuid : string) : t :=
  let th := DownloadThread.init url save_path uuid in
  Make url save_path (Some th) false false (DownloadThread.download_id th)
       ("URL: " ++ url) (-1) false "Ready to download".

Definition start_download (self : t) : t :=
  match thread self with
  | Some th =>
      if negb (is_started self) then
        Make (url self) (save_path self) (Some (DownloadThread.start th))
             true (is_finished self) (download_id self) (url_label self)
             (progress_bar self) true "Downloading..."
      else self
  | None => self
  end.

Definition interrupt_download (self : t) : t :=
  match thread self with
  | Some th =>
      if is_started self && negb (is_finished self) then
        Make (url self) (save_path self) (Some (DownloadThread.interrupt th))
             (is_started self) (is_finished self) (download_id self)
             (url_label self) (progress_bar self) false "Interrupting..."
      else self
  | None => self
  end.

Definition update_progress (thread_id : string) (progress : Z) (self : t) : t :=
  if String.eqb thread_id (download_id self) then
    Make (url self) (save_path self) (thread self) (is_started self)
         (is_finished self) (download_id self) (url_label self)
         (setValue progress (progress_bar self)) (interrupt_button self)
         (status_label self)
  else self.

Definition download_finished (thread_id : string) (self : t) : t :=
  if String.eqb thread_id (download_id self) then
    Make (url self) (save_path self) (thread self) (is_started self)
         true (download_id self) (url_label self)
         (setValue 100 (progress_bar self)) false "Complete!"
  else self.

Definition download_error (thread_id error_msg : string) (self : t) : t :=
  if String.eqb thread_id (download_id self) then
    Make (url self) (save_path self) (thread self) (is_started self)
         (is_finished self) (download_id self) (url_label self)
         (progress_bar self) false ("Error: " ++ error_msg)
  else self.

(** The slot a signal of the widget's own thread is connected to. *)
Definition handle (e : event) (self : t) : t :=
  match e with
  | progress_signal id p => update_progress id p self
  | finished_signal id => download_finished id self
  | error_signal id msg => download_error id msg self
  end.

(** Has [interrupt()] been called on the widget's thread? *)
Definition interrupt_requested (self : t) : bool :=
  match thread self with
  | Some th => DownloadThread._is_interrupted th
  | None => false
  end.

(** How many times the widget's thread was started. *)
Definition thread_starts (self : t) : nat :=
  match thread self with
  | Some th => DownloadThread.starts th
  | None => 0%nat
  end.

End DownloadWidget.

(** The lifecycle states of a download, as the widget shows them. *)
Inductive record_state := Idle | Running | Interrupting | Finished | Errored.

(** A widget is in a state when its flags and its status line say so.  The
    widget keeps no flag for [Errored]: only the status line tells it from
    [Running] and [Interrupting]. *)
Definition in_state (w : DownloadWidget.t) (s : record_state) : Prop :=
  match s with
  | Idle => DownloadWidget.is_started w = false
  | Running =>
      DownloadWidget.is_started w = true /\ DownloadWidget.is_finished w = false /\
      DownloadWidget.status_label w = "Downloading..."
  | Interrupting =>
      DownloadWidget.is_started w = true /\ DownloadWidget.is_finished w = false /\
      DownloadWidget.status_label w = "Interrupting..."
  | Finished =>
      DownloadWidget.is_started w = true /\ DownloadWidget.is_finished w = true
  | Errored =>
      DownloadWidget.is_started w = true /\ DownloadWidget.is_finished w = false /\
      exists msg, DownloadWidget.status_label w = "Error: " ++ msg
  end.

(** ** The application window: the registry of downloads *)

Inductive layout_item :=
| Stretch
| Item (download_id : string).

Inductive StandardButton := Yes | No.

Module DownloaderApp.

Record t := Make {
  downloads : list DownloadWidget.t;
  downloads_layout : list layout_item;
  url_input : string;
  deleted : list DownloadWidget.t   (* widgets handed to [deleteLater] *)
}.

(** [__init__] with [_setup_ui]: no download, a layout holding its stretch. *)
Definition init : t := Make [] [Stretch] "" [].

(** The user types into the URL field. *)
Definition set_url_input (text : string) (self : t) : t :=
  Make (downloads self) (downloads_layout self) text (deleted self).

(** [QBoxLayout.insertWidget(index, widget)] *)
Definition insertWidget (index : nat) (w : DownloadWidget.t)
    (l : list layout_item) : list layout_item :=
  (firstn index l ++ Item (DownloadWidget.download_id w) :: skipn index l)%list.

(** [QLayout.removeWidget(widget)] *)
Fixpoint removeWidget (w : DownloadWidget.t) (l : list layout_item) : list layout_item :=
  match l with
  | [] => []
  | Stretch :: l' => Stretch :: removeWidget w l'
  | Item id :: l' =>
      if String.eqb id (DownloadWidget.download_id w) then l'
      else Item id :: removeWidget w l'
  end.

(** [add_download]; [uuid] is the identifier the new thread would draw. *)
Definition add_download (uuid : string) (self : t) : t :=
  let url := Py.strip (url_input self) in
  if Py.falsy url then self
  else
    let filename := Py.basename (Py.split_head "?" url) in
    let filename :=
      if Py.falsy filename
      then "download_" ++ Py.str_of_nat (length (downloads self) + 1)
      else filename in
    let save_path := filename in
    let download_widget := DownloadWidget.init url save_path uuid in
    Make (downloads self ++ [download_widget])%list
         (insertWidget (length (downloads self)) download_widget (downloads_layout self))
         ""
         (deleted self).

Definition with_downloads (ds : list DownloadWidget.t) (self : t) : t :=
  Make ds (downloads_layout self) (url_input self) (deleted self).

Definition start_all_downloads (self : t) : t :=
  with_downloads
    (map (fun download =>
            if negb (DownloadWidget.is_started download)
            then DownloadWidget.start_download download
            else download)
         (downloads self))
    self.

Definition interrupt_all_downloads (self : t) : t :=
  with_downloads
    (map (fun download =>
            if DownloadWidget.is_started download &&
               negb (DownloadWidget.is_finished download)
            then DownloadWidget.interrupt_download download
            else download)
         (downloads self))
    self.

(** [clear_downloads]; [reply] is the answer to the confirmation dialog,
    which is shown only when the list is not empty. *)
Definition clear_downloads (reply : StandardButton) (self : t) : t :=
  match downloads self with
  | [] => self
  | _ :: _ =>
      match reply with
      | Yes =>
          let self := interrupt_all_downloads self in
          Make []
               (fold_left (fun l download => removeWidget download l)
                          (downloads self) (downloads_layout self))
               (url_input self)
               (deleted self ++ downloads self)%list
      | No => self
      end
  end.

(** A signal of the thread numbered [i] in the list reaches the slot of
    its widget. *)
Definition deliver (i : nat) (e : event) (self : t) : t :=
  with_downloads
    (match nth_error (downloads self) i with
     | Some w => <[i := DownloadWidget.handle e w]> (downloads self)
     | None => downloads self
     end)
    self.

End DownloaderApp.

(** ** Vocabulary of the statements about the registry *)

(** What [start_all_downloads] does to one widget. *)
Definition start_if_idle (download : DownloadWidget.t) : DownloadWidget.t :=
  if negb (DownloadWidget.is_started download)
  then DownloadWidget.start_download download
  else download.

(** The widgets that [interrupt_all_downloads] treats as active. *)
Definition active (w : DownloadWidget.t) : bool :=
  DownloadWidget.is_started w && negb (DownloadWidget.is_finished w).

(** A registry with one download that was started and whose worker
    reported a failed request. *)
Definition errored_app : DownloaderApp.t :=
  DownloaderApp.deliver 0
    (error_signal "id-1" "404 Client Error: Not Found for url: http://h/f")
    (DownloaderApp.start_all_downloads
       (DownloaderApp.add_download "id-1"
          (DownloaderApp.set_url_input "http://h/f" DownloaderApp.init))).

(** What the user and the workers can do to the application. *)
Inductive command :=
| TypeUrl (text : string)              (* edit the URL field *)
| AddDownload (uuid : string)          (* click "Add Download" *)
| StartAll                             (* click "Start All Downloads" *)
| InterruptAll                         (* click "Interrupt All" *)
| InterruptOne (i : nat)               (* click "Interrupt" on a widget *)
| ClearList (reply : StandardButton)   (* click "Clear List" and answer *)
| Signal (i : nat) (e : event).        (* a signal of a worker is delivered *)

Definition exec (c : command) (app : DownloaderApp.t) : DownloaderApp.t :=
  match c with
  | TypeUrl text => DownloaderApp.set_url_input text app
  | AddDownload uuid => DownloaderApp.add_download uuid app
  | StartAll => DownloaderApp.start_all_downloads app
  | InterruptAll => DownloaderApp.interrupt_all_downloads app
  | InterruptOne i =>
      DownloaderApp.with_downloads
        (match DownloaderApp.downloads app !! i with
         | Some w => <[i := DownloadWidget.interrupt_download w]> (DownloaderApp.downloads app)
         | None => DownloaderApp.downloads app
         end)
        app
  | ClearList reply => DownloaderApp.clear_downloads reply app
  | Signal i e => DownloaderApp.deliver i e app
  end.

(** The application after a session that starts from the empty window. *)
Definition session (cs : list command) : DownloaderApp.t :=
  fold_left (fun app c => exec c app) cs DownloaderApp.init.

(** A widget has a thread, started once if the widget is started and not
    at all otherwise. *)
Definition started_once (w : DownloadWidget.t) : Prop :=
  DownloadWidget.thread w <> None /\
  DownloadWidget.thread_starts w
  = if DownloadWidget.is_started w then 1%nat else 0%nat.

(** ** Vocabulary of the statements about binary64 arithmetic *)

(** Where a remainder [r] of a division by [c] lies in its unit interval:
    the [location] that the rounding of [SpecFloat] works with. *)
Definition loc_of (r c : Z) : location :=
  if r =? 0 then loc_Exact else loc_Inexact (2 * r ?= c).

(** A shift record that stands for the integer part and the location of
    the quotient [N / C]. *)
Definition located (mrs : shr_record) (N C : Z) : Prop :=
  0 < C /\ 0 <= N /\ shr_m mrs = N / C /\ loc_of_shr_record mrs = loc_of (N mod C) C.

(** Mantissas of 53 bits. *)
Definition normal53 (m : positive) : Prop := 2 ^ 52 <= Zpos m < 2 ^ 53.

(** The mantissa of [100.0]: [100 * 2^46]. *)
Definition hundred_m : positive := 7036874417766400.

(** ** Vocabulary of the statements about the worker *)

(** The percentages carried by the progress events of a list. *)
Definition progress_values (evs : list event) : list Z :=
  flat_map (fun e => match e with progress_signal _ p => [p] | _ => [] end) evs.

(** Running totals: [prefix_sums acc [x1; x2; ...] = [acc+x1; acc+x1+x2; ...]]. *)
Fixpoint prefix_sums (acc : Z) (l : list Z) : list Z :=
  match l with
  | [] => []
  | x :: l' => (acc + x) :: prefix_sums (acc + x) l'
  end.

(** The number of bytes handed to [f.write] by each write of a trace. *)
Definition write_sizes (t : list action) : list Z :=
  map (fun d => Z.of_nat (length d)) (writes_of t).

(** The number of bytes in a response body. *)
Definition body_size (chunks : list chunk) : Z :=
  fold_right (fun c n => match c with Data d => Z.of_nat (length d) + n | StreamError _ => n end)
             0 chunks.




Section Traces.

Variable self : DownloadThread.t.
Variable env : environment.

Local Abbreviation path := (DownloadThread.save_path self).
Local Abbreviation ident := (DownloadThread.download_id self).
Local Abbreviation flag_at := (DownloadThread.flag_at self env).

(** The steps of the loop over the chunks and its outcome, for a loop that
    starts after [n] steps of the worker with [downloaded] bytes counted. *)
Inductive loop_run (total_size : Z) : nat -> Z -> list action -> result unit -> Prop :=
| loop_done n downloaded :
    loop_run total_size n downloaded [] (Ok tt)
| loop_stream_error n downloaded msg :
    loop_run total_size n downloaded [] (Raise (Exception msg))
| loop_interrupted n downloaded :
    flag_at n = true ->
    loop_run total_size n downloaded [AFlag ChunkCheck true]
             (Raise (InterruptedError DownloadThread.interrupted_message))
| loop_write_error n downloaded msg :
    flag_at n = false ->
    loop_run total_size n downloaded [AFlag ChunkCheck false] (Raise (Exception msg))
| loop_percent_error n downloaded data msg :
    flag_at n = false ->
    DownloadThread.percent (downloaded + Z.of_nat (length data)) total_size = None ->
    loop_run total_size n downloaded [AFlag ChunkCheck false; AWrite path data]
             (Raise (Exception msg))
| loop_chunk n downloaded data progress rest r :
    flag_at n = false ->
    DownloadThread.percent (downloaded + Z.of_nat (length data)) total_size = Some progress ->
    loop_run total_size (3 + n) (downloaded + Z.of_nat (length data)) rest r ->
    loop_run total_size n downloaded
             (AFlag ChunkCheck false :: AWrite path data ::
              AEmit (progress_signal ident progress) :: rest) r.

(** Lines 68-69, as the step number [n] of the worker. *)
Definition completion (n : nat) : list action :=
  AFlag CompletionCheck (flag_at n) ::
  (if flag_at n then [] else [AEmit (finished_signal ident)]).

(** The steps of the [try] body and its outcome, for a worker that starts
    with no step performed. *)
Inductive body_run : list action -> result unit -> Prop :=
| body_fault_before_open msg :
    body_run [] (Raise (Exception msg))
| body_bulk_skipped :
    flag_at 1 = true ->
    body_run ([AOpen path; AFlag BulkWriteCheck true] ++ completion 2)%list (Ok tt)
| body_bulk_fault msg :
    flag_at 1 = false ->
    body_run [AOpen path; AFlag BulkWriteCheck false] (Raise (Exception msg))
| body_bulk_written data :
    flag_at 1 = false ->
    body_run ([AOpen path; AFlag BulkWriteCheck false; AWrite path data] ++ completion 3)%list
             (Ok tt)
| body_loop_raise resp total_size t e :
    get_result env = inr resp -> content_length resp = HeaderInt total_size ->
    fold_right Z.add 0 (write_sizes t) <= body_size (body resp) ->
    loop_run total_size 1 0 t (Raise e) ->
    body_run (AOpen path :: t) (Raise e)
| body_loop_done resp total_size t :
    get_result env = inr resp -> content_length resp = HeaderInt total_size ->
    fold_right Z.add 0 (write_sizes t) <= body_size (body resp) ->
    loop_run total_size 1 0 t (Ok tt) ->
    body_run (AOpen path :: t ++ completion (S (length t)))%list (Ok tt).

(** What the handlers of [run] add to the steps of the body. *)
Definition handler_steps (r : result unit) : list action :=
  match r with
  | Ok _ => []
  | Raise (InterruptedError msg) => [AEmit (error_signal ident msg); ARemove path]
  | Raise (Exception msg) => [AEmit (error_signal ident msg)]
  end.

(** Did the worker open its file? *)
Definition opened (t : list action) : bool :=
  existsb (fun a => match a with AOpen _ => true | _ => false end) t.

(** The file system after the body: an opened file holds what was written. *)
Definition body_fs (fs0 : gmap string bytes) (t : list action) : gmap string bytes :=
  if opened t then <[path := concat (writes_of t)]> fs0 else fs0.

(** The file system after the handlers. *)
Definition final_fs (fs0 : gmap string bytes) (t : list action) (r : result unit)
  : gmap string bytes :=
  match r with
  | Raise (InterruptedError _) => delete path (body_fs fs0 t)
  | _ => body_fs fs0 t
  end.

(** Every flag entry of a trace that starts after [n] steps records the
    value the flag had at that step, and every write comes right after a
    check that found the flag unset ([prev] tells whether the step before
    the trace was such a check). *)
Fixpoint guarded (n : nat) (prev : bool) (t : list action) : bool :=
  match t with
  | [] => true
  | AFlag site b :: t' =>
      Bool.eqb b (flag_at n) &&
      guarded (S n) (match site with CompletionCheck => false | _ => negb b end) t'
  | AWrite _ _ :: t' => prev && guarded (S n) false t'
  | _ :: t' => guarded (S n) false t'
  end.

(** No write happens while the flag is set. *)
Definition no_write_once_set (t : list action) : Prop :=
  forall (j : nat) p d, t !! j = Some (AWrite p d) -> flag_at j = false.

End Traces.

(** ** Vocabulary of further statements *)

(** The chunks that the body iterator delivers before the stream fails. *)
Fixpoint payload (chunks : list chunk) : list bytes :=
  match chunks with
  | [] => []
  | Data d :: rest => d :: payload rest
  | StreamError _ :: _ => []
  end.

(** The stream delivers the whole body. *)
Definition intact (chunks : list chunk) : bool :=
  forallb (fun c => match c with Data _ => true | StreamError _ => false end) chunks.

(** Does the character [c] occur in [s]? *)
Definition has_char (c : ascii) (s : string) : bool :=
  existsb (Ascii.eqb c) (list_ascii_of_string s).

(** A file name that stays in the working directory and holds no query. *)
Definition plain_name (s : string) : Prop :=
  s <> "" /\ has_char "/" s = false /\ has_char "?" s = false.

(** The layout that mirrors a list of downloads: one item per download, in
    order, then the stretch. *)
Definition layout_of (ds : list DownloadWidget.t) : list layout_item :=
  (map (fun w => Item (DownloadWidget.download_id w)) ds ++ [Stretch])%list.

(** A widget and its thread agree on the destination, which is a plain
    file name. *)
Definition writes_plain_file (w : DownloadWidget.t) : Prop :=
  plain_name (DownloadWidget.save_path w) /\
  exists th, DownloadWidget.thread w = Some th /\
             DownloadThread.save_path th = DownloadWidget.save_path w /\
             DownloadThread.download_id th = DownloadWidget.download_id w.

(** The slots of a widget run on the events of its worker, in order. *)
Definition deliver_all (evs : list event) (w : DownloadWidget.t) : DownloadWidget.t :=
  fold_left (fun w e => DownloadWidget.handle e w) evs w.

(** [w'] is a later stage of the download [w]: the same identifier and
    destination, and no lifecycle flag taken back. *)
Definition advances (w w' : DownloadWidget.t) : Prop :=
  DownloadWidget.download_id w' = DownloadWidget.download_id w /\
  DownloadWidget.save_path w' = DownloadWidget.save_path w /\
  (DownloadWidget.is_started w = true -> DownloadWidget.is_started w' = true) /\
  (DownloadWidget.is_finished w = true -> DownloadWidget.is_finished w' = true) /\
  (DownloadWidget.interrupt_requested w = true ->
   DownloadWidget.interrupt_requested w' = true).

(** ** Scenarios *)

Definition zeros (n : nat) : bytes := repeat Byte.x00 n.

Definition worker1 : DownloadThread.t :=
  DownloadThread.init "http://example.test/file.bin" "file.bin" "id-1".

(** [Content-Length: 1000], the body in two chunks of 500 bytes. *)
Definition two_chunks : response :=
  Response None (HeaderInt 1000) [Data (zeros 500); Data (zeros 500)].

(** No [Content-Length]; a body of 2000 bytes. *)
Definition unknown_length : response :=
  Response None HeaderAbsent [Data (zeros 2000)].

(** A response with status 404. *)
Definition not_found : response :=
  Response (Some "404 Client Error: Not Found for url: http://example.test/file.bin")
           HeaderAbsent [].


(** No fault; [interrupt()] is called once the worker has performed
    [k] steps, or never. *)
Definition served (r : response) (k : option nat) : environment :=
  Environment (inr r) None None k.

(** The disk fails on the write numbered [j]. *)
Definition disk_failure (r : response) (j : nat) : environment :=
  Environment (inr r) None (Some (j, "[Errno 28] No space left on device")) None.

(** * Properties of the registry *)

Section Registry.

Import DownloaderApp.

Local Abbreviation is_started := DownloadWidget.is_started.
Local Abbreviation is_finished := DownloadWidget.is_finished.




Lemma start_download_started (w : DownloadWidget.t) :
  is_started w = true -> DownloadWidget.start_download w = w.
Proof.
  intros H. unfold DownloadWidget.start_download.
  rewrite H. destruct (DownloadWidget.thread w); reflexivity.
Qed.

Lemma start_download_is_started (w : DownloadWidget.t) :
  DownloadWidget.thread w <> None ->
  is_started (DownloadWidget.start_download w) = true.
Proof.
  intros H. unfold DownloadWidget.start_download.
  destruct (DownloadWidget.thread w) as [th|]; [|congruence].
  destruct (is_started w) eqn:E; simpl; auto.
Qed.

Lemma start_if_idle_idem (w : DownloadWidget.t) :
  start_if_idle (start_if_idle w) = start_if_idle w.
Proof.
  unfold start_if_idle, DownloadWidget.start_download.
  destruct w as [u p [th|] s f i l b e st]; destruct s; reflexivity.
Qed.

(** C8. [start_download] leaves a started widget as it is; hence
    [start_all_downloads] leaves every started widget of any registry as
    it is, and a second call changes nothing at all: no thread is
    started a second time. *)
Theorem start_all_downloads_idempotent (app : t) :
  (forall w, is_started w = true -> DownloadWidget.start_download w = w) /\
  (forall (i : nat) w,
      downloads app !! i = Some w -> is_started w = true ->
      downloads (start_all_downloads app) !! i = Some w) /\
  start_all_downloads (start_all_downloads app) = start_all_downloads app /\
  map DownloadWidget.thread_starts (downloads (start_all_downloads (start_all_downloads app)))
  = map DownloadWidget.thread_starts (downloads (start_all_downloads app)).
Proof.
  assert (Hidem : start_all_downloads (start_all_downloads app) = start_all_downloads app).
  { unfold start_all_downloads, with_downloads. simpl. f_equal.
    rewrite map_map. apply map_ext. intros w. apply (start_if_idle_idem w). }
  repeat split.
  - apply start_download_started.
  - intros i w Hi Hs. unfold start_all_downloads, with_downloads. simpl.
    rewrite list_lookup_fmap_Some. exists w. split; [|exact Hi].
    cbv beta. rewrite Hs. reflexivity.
  - exact Hidem.
  - rewrite Hidem. reflexivity.
Qed.

Lemma start_all_downloads_idempotent_witness :
  let app := start_all_downloads (add_download "id-1" (set_url_input "http://h/f" init)) in
  exists w, downloads app !! 0%nat = Some w /\
            DownloadWidget.start_download w = w /\
            downloads (start_all_downloads app) !! 0%nat = Some w.
Proof.
  intros app.
  destruct (start_all_downloads_idempotent app) as (H1 & H2 & _).
  eexists. split; [reflexivity|]. split.
  - apply H1. reflexivity.
  - apply H2; reflexivity.
Defined.

Lemma interrupt_all_downloads_lookup (app : t) (i : nat) :
  downloads (interrupt_all_downloads app) !! i =
  (fun download => if active download
                   then DownloadWidget.interrupt_download download
                   else download) <$> (downloads app !! i).
Proof.
  unfold interrupt_all_downloads, with_downloads. simpl.
  apply list_lookup_fmap.
Qed.

(** X16.  The part of C4 that the code keeps: a widget that was never started,
    or that has finished, comes out of [interrupt_all_downloads] as it
    went in. *)
Lemma interrupt_all_downloads_frame (app : t) (i : nat) (w : DownloadWidget.t) :
  downloads app !! i = Some w ->
  in_state w Idle \/ in_state w Finished ->
  downloads (interrupt_all_downloads app) !! i = Some w.
Proof.
  intros Hi Hs. rewrite interrupt_all_downloads_lookup, Hi. simpl.
  unfold active. destruct Hs as [Hs|[Hs Hf]]; simpl in *.
  - rewrite Hs. reflexivity.
  - rewrite Hs, Hf. reflexivity.
Qed.

(** C4, at the failing input.  The only widget of [errored_app] is in
    state [Errored] and no interrupt was requested on its thread; after
    [interrupt_all_downloads] the flag of its thread is set and its status
    line reads "Interrupting...": it is no longer shown as [Errored]. *)
Theorem interrupt_all_downloads_touches_errored :
  exists w w',
    downloads errored_app = [w] /\
    downloads (interrupt_all_downloads errored_app) = [w'] /\
    in_state w Errored /\
    DownloadWidget.interrupt_requested w = false /\
    DownloadWidget.interrupt_requested w' = true /\
    in_state w' Interrupting /\
    ~ in_state w' Errored /\
    w' <> w.
Proof.
  do 2 eexists. split; [reflexivity|]. split; [reflexivity|].
  repeat split; simpl; try reflexivity.
  - eexists. reflexivity.
  - intros (_ & _ & msg & H). discriminate H.
  - discriminate.
Qed.

Lemma interrupt_if_active_requested (w : DownloadWidget.t) :
  active w = true -> DownloadWidget.thread w <> None ->
  DownloadWidget.interrupt_requested
    (if active w then DownloadWidget.interrupt_download w else w) = true.
Proof.
  intros Ha Ht. rewrite Ha. unfold DownloadWidget.interrupt_download.
  destruct (DownloadWidget.thread w) as [th|] eqn:T; [|congruence].
  unfold active in Ha. rewrite Ha.
  unfold DownloadWidget.interrupt_requested. reflexivity.
Qed.

(** C9. Once confirmed, [clear_downloads] leaves a registry without any
    download, whatever it held; the widgets it hands to [deleteLater] are
    those of the registry after [interrupt_all_downloads], so that the
    thread of every active widget has its interrupt flag set when the
    widget is removed. *)
Theorem clear_downloads_empties (app : t) :
  downloads (clear_downloads Yes app) = [] /\
  length (downloads (clear_downloads Yes app)) = 0%nat /\
  deleted (clear_downloads Yes app)
  = (deleted app ++ downloads (interrupt_all_downloads app))%list /\
  (forall (i : nat) w,
      downloads app !! i = Some w -> active w = true ->
      DownloadWidget.thread w <> None ->
      exists w', (downloads (interrupt_all_downloads app)) !! i = Some w' /\
                 DownloadWidget.interrupt_requested w' = true).
Proof.
  assert (H0 : downloads (clear_downloads Yes app) = []).
  { unfold clear_downloads. destruct (downloads app) eqn:E; [exact E|reflexivity]. }
  split; [exact H0|]. split; [rewrite H0; reflexivity|]. split.
  - unfold clear_downloads. destruct (downloads app) eqn:E.
    + unfold interrupt_all_downloads, with_downloads. simpl. rewrite E. simpl.
      symmetry. apply app_nil_r.
    + reflexivity.
  - intros i w Hi Ha Ht. rewrite interrupt_all_downloads_lookup, Hi. simpl.
    eexists. split; [reflexivity|]. apply interrupt_if_active_requested; assumption.
Qed.

Lemma clear_downloads_empties_witness :
  let app := start_all_downloads (add_download "id-1" (set_url_input "http://h/f" init)) in
  downloads (clear_downloads Yes app) = [] /\
  exists w', (downloads (interrupt_all_downloads app)) !! 0%nat = Some w' /\
             DownloadWidget.interrupt_requested w' = true.
Proof.
  intros app.
  destruct (clear_downloads_empties app) as (H1 & _ & _ & H4).
  split; [exact H1|].
  eapply H4; [reflexivity|reflexivity|discriminate].
Defined.

Lemma started_once_start_if_idle (w : DownloadWidget.t) :
  started_once w -> started_once (start_if_idle w).
Proof.
  unfold started_once, start_if_idle, DownloadWidget.start_download,
    DownloadWidget.thread_starts.
  destruct w as [u p [th|] s f i l b e st]; simpl; intros [Ht Hs]; [|congruence].
  destruct s; simpl in *; split; congruence.
Qed.

Lemma started_once_interrupt (w : DownloadWidget.t) :
  started_once w -> started_once (DownloadWidget.interrupt_download w).
Proof.
  unfold started_once, DownloadWidget.interrupt_download, DownloadWidget.thread_starts.
  destruct w as [u p [th|] s f i l b e st]; simpl; intros [Ht Hs]; [|congruence].
  destruct (s && negb f); simpl; split; congruence.
Qed.

Lemma started_once_handle (e : event) (w : DownloadWidget.t) :
  started_once w -> started_once (DownloadWidget.handle e w).
Proof.
  unfold started_once, DownloadWidget.handle, DownloadWidget.update_progress,
    DownloadWidget.download_finished, DownloadWidget.download_error,
    DownloadWidget.thread_starts.
  destruct e as [id q|id|id msg]; destruct (String.eqb id (DownloadWidget.download_id w));
    simpl; auto.
Qed.

Lemma started_once_insert (l : list DownloadWidget.t) (i : nat) (w : DownloadWidget.t) :
  Forall started_once l -> started_once w -> Forall started_once (<[i := w]> l).
Proof. intros Hl Hw. apply Forall_insert; assumption. Qed.

Lemma exec_started_once (c : command) (app : t) :
  Forall started_once (downloads app) -> Forall started_once (downloads (exec c app)).
Proof.
  intros H. destruct c as [text|uuid| | |i|reply|i e]; simpl.
  - exact H.
  - unfold add_download. destruct (Py.falsy (Py.strip (url_input app))); [exact H|].
    simpl. apply Forall_app. split; [exact H|].
    constructor; [|constructor]. split; [discriminate|reflexivity].
  - apply Forall_fmap. eapply Forall_impl; [exact H|].
    intros w Hw. apply (started_once_start_if_idle w Hw).
  - apply Forall_fmap. eapply Forall_impl; [exact H|].
    intros w Hw. simpl. destruct (_ && _); [apply started_once_interrupt|]; exact Hw.
  - destruct (downloads app !! i) as [w|] eqn:Hi; [|exact H].
    apply started_once_insert; [exact H|]. apply started_once_interrupt.
    eapply Forall_lookup_1; eauto.
  - unfold clear_downloads. destruct (downloads app) eqn:E; [rewrite E; constructor|].
    destruct reply; simpl; [constructor|]. rewrite E. exact H.
  - unfold deliver. simpl. destruct (nth_error (downloads app) i) as [w|] eqn:Hi; [|exact H].
    apply started_once_insert; [exact H|]. apply started_once_handle.
    apply nth_error_In in Hi. rewrite Forall_forall in H. apply H.
    apply list_elem_of_In. exact Hi.
Qed.

(** X19.  In every session, whatever the user does and whatever the workers
    report, the thread of each download has been started once if the
    download is started, and never otherwise: no thread is started twice. *)
Theorem threads_started_at_most_once (cs : list command) :
  Forall started_once (downloads (session cs)) /\
  Forall (fun w => (DownloadWidget.thread_starts w <= 1)%nat) (downloads (session cs)).
Proof.
  assert (H : Forall started_once (downloads (session cs))).
  { unfold session.
    assert (Hgen : forall app, Forall started_once (downloads app) ->
              Forall started_once (downloads (fold_left (fun a c => exec c a) cs app))).
    { induction cs as [|c cs IH]; intros app Happ; simpl; [exact Happ|].
      apply IH. apply exec_started_once. exact Happ. }
    apply Hgen. constructor. }
  split; [exact H|].
  eapply Forall_impl; [exact H|]. intros w [_ Hs]. rewrite Hs.
  destruct (DownloadWidget.is_started w); lia.
Qed.

End Registry.

(** * Binary64 arithmetic: the accuracy of the progress percentage *)

Section Binary64.

Import Py.

Local Abbreviation percent := DownloadThread.percent.

Lemma digits2_pos_log2 (p : positive) : Zpos (digits2_pos p) = Z.succ (Z.log2 (Zpos p)).
Proof.
  assert (H : forall q, digits2_pos q = Pos.size q).
  { induction q; simpl; congruence. }
  rewrite H. destruct p; simpl; lia.
Qed.

Lemma Zdigits2_bounds (m d : Z) :
  0 < d -> 2 ^ (d - 1) <= m < 2 ^ d -> Zdigits2 m = d.
Proof.
  intros Hd Hm.
  assert (0 < m) by (pose proof (Z.pow_pos_nonneg 2 (d - 1)); lia).
  destruct m as [|p|p]; try lia.
  simpl. rewrite digits2_pos_log2.
  rewrite (Z.log2_unique (Zpos p) (d - 1)); try lia.
  replace (Z.succ (d - 1)) with d by lia. exact Hm.
Qed.

Lemma Zdigits2_spec (m : Z) :
  0 < m -> 0 < Zdigits2 m /\ 2 ^ (Zdigits2 m - 1) <= m < 2 ^ (Zdigits2 m).
Proof.
  intros Hm. destruct m as [|p|p]; try lia.
  simpl. rewrite digits2_pos_log2.
  pose proof (Z.log2_nonneg (Zpos p)).
  pose proof (Z.log2_spec (Zpos p) Hm).
  replace (Z.succ (Z.log2 (Z.pos p)) - 1) with (Z.log2 (Zpos p)) by lia.
  split; [lia|]. exact H0.
Qed.

Lemma shr_1_spec (m : Z) (r s : bool) :
  0 <= m ->
  shr_1 (Build_shr_record m r s) = Build_shr_record (m / 2) (Z.odd m) (r || s).
Proof.
  intros Hm. destruct m as [|p|p]; [reflexivity| |lia].
  destruct p as [p|p|]; simpl shr_1; f_equal.
  - rewrite Pos2Z.inj_xI. apply Z.div_unique with 1; lia.
  - rewrite Pos2Z.inj_xO. apply Z.div_unique with 0; lia.
Qed.

Lemma located_shr_1 (mrs : shr_record) (N C : Z) :
  located mrs N C -> located (shr_1 mrs) N (2 * C).
Proof.
  intros (HC & HN & Hm & Hl).
  destruct mrs as [m r s]. simpl in Hm, Hl.
  assert (H0 : 0 <= m) by (subst m; apply Z.div_pos; lia).
  rewrite (shr_1_spec m r s H0).
  assert (Hdiv : N / (2 * C) = m / 2).
  { subst m. rewrite (Z.mul_comm 2 C), Z.div_div by lia. reflexivity. }
  assert (Hmod : N mod (2 * C) = N mod C + C * (m mod 2)).
  { subst m. rewrite (Z.mul_comm 2 C). apply Z.rem_mul_r; lia. }
  pose proof (Z.mod_pos_bound N C HC) as Hr.
  repeat split; try lia; simpl.
  - symmetry. exact Hdiv.
  - rewrite Hmod, Zmod_odd. unfold loc_of in *.
    assert (Hrs : (r || s) = negb (N mod C =? 0)).
    { destruct (N mod C =? 0), r, s; simpl in *; try discriminate; reflexivity. }
    rewrite Hrs.
    destruct (Z.eqb_spec (N mod C) 0) as [E0|E0]; destruct (Z.odd m); simpl negb; cbv iota.
    + rewrite E0. replace (0 + C * 1) with C by lia.
      destruct (Z.eqb_spec C 0); [lia|]. rewrite Z.compare_refl. reflexivity.
    + rewrite E0. replace (0 + C * 0) with 0 by lia. reflexivity.
    + destruct (Z.eqb_spec (N mod C + C * 1) 0); [lia|].
      destruct (Z.compare_spec (2 * (N mod C + C * 1)) (2 * C)); try lia. reflexivity.
    + replace (N mod C + C * 0) with (N mod C) by lia.
      destruct (Z.eqb_spec (N mod C) 0); [lia|].
      destruct (Z.compare_spec (2 * (N mod C)) (2 * C)); try lia. reflexivity.
Qed.

Lemma located_iter_pos (N : Z) (p : positive) :
  forall mrs C, located mrs N C -> located (SpecFloat.iter_pos shr_1 p mrs) N (2 ^ Zpos p * C).
Proof.
  induction p as [p IH|p IH|]; intros mrs C H; simpl SpecFloat.iter_pos.
  - apply located_shr_1 in H. apply IH in H. apply IH in H.
    replace (2 ^ Z.pos p~1 * C) with (2 ^ Z.pos p * (2 ^ Z.pos p * (2 * C))); [exact H|].
    assert (E : 2 ^ Z.pos p~1 = 2 ^ Z.pos p * 2 ^ Z.pos p * 2).
    { replace (2 ^ Z.pos p * 2 ^ Z.pos p * 2) with (2 ^ Z.pos p * 2 ^ Z.pos p * 2 ^ 1)
        by (rewrite Z.pow_1_r; reflexivity).
      rewrite <- !Z.pow_add_r by lia. f_equal. lia. }
    rewrite E. ring.
  - apply IH in H. apply IH in H.
    replace (2 ^ Z.pos p~0 * C) with (2 ^ Z.pos p * (2 ^ Z.pos p * C)); [exact H|].
    assert (E : 2 ^ Z.pos p~0 = 2 ^ Z.pos p * 2 ^ Z.pos p).
    { rewrite <- Z.pow_add_r by lia. f_equal. lia. }
    rewrite E. ring.
  - apply located_shr_1 in H. exact H.
Qed.

Lemma located_init (mx r c : Z) :
  0 < c -> 0 <= r < c -> 0 <= mx ->
  located (shr_record_of_loc mx (loc_of r c)) (mx * c + r) c.
Proof.
  intros Hc Hr Hm.
  assert (Hd : (mx * c + r) / c = mx) by (symmetry; apply Z.div_unique with r; lia).
  assert (Hmod : (mx * c + r) mod c = r) by (symmetry; apply Z.mod_unique with mx; lia).
  repeat split; try lia.
  - rewrite Hd. unfold loc_of, shr_record_of_loc.
    destruct (r =? 0); [reflexivity|]. destruct (2 * r ?= c); reflexivity.
  - rewrite Hmod. unfold loc_of, shr_record_of_loc.
    destruct (r =? 0); [reflexivity|]. destruct (2 * r ?= c); reflexivity.
Qed.

Lemma round_located (mrs : shr_record) (N C : Z) :
  located mrs N C ->
  let m' := round_nearest_even (shr_m mrs) (loc_of_shr_record mrs) in
  N / C <= m' <= N / C + 1 /\ - C <= 2 * (m' * C - N) <= C.
Proof.
  intros (HC & HN & Hm & Hl) m'. subst m'. rewrite Hl, Hm.
  pose proof (Z.div_mod N C ltac:(lia)) as Hdm.
  pose proof (Z.mod_pos_bound N C HC) as Hr.
  unfold loc_of, round_nearest_even.
  destruct (Z.eqb_spec (N mod C) 0) as [E0|E0].
  - split; lia.
  - destruct (Z.compare_spec (2 * (N mod C)) C) as [E|E|E].
    + destruct (Z.even (N / C)); split; lia.
    + split; lia.
    + split; lia.
Qed.

Lemma fexp_normal (z : Z) : -1021 <= z -> fexp prec emax z = z - 53.
Proof. unfold fexp, emin, prec, emax. lia. Qed.

Lemma digits_ge_53 (mx : Z) : 2 ^ 52 <= mx -> 53 <= Zdigits2 mx.
Proof.
  intros H. destruct (Zdigits2_spec mx ltac:(lia)) as [Hd [_ Hu]].
  destruct (Z_lt_le_dec (Zdigits2 mx) 53) as [Hlt|]; [|assumption].
  assert (2 ^ Zdigits2 mx <= 2 ^ 52) by (apply Z.pow_le_mono_r; lia). lia.
Qed.

Lemma shr_fexp_spec (mx ex r c : Z) :
  0 < c -> 0 <= r < c -> 2 ^ 52 <= mx ->
  -1074 <= Zdigits2 mx + ex - 53 ->
  exists mrs',
    shr_fexp prec emax mx ex (loc_of r c) = (mrs', ex + (Zdigits2 mx - 53)) /\
    located mrs' (mx * c + r) (2 ^ (Zdigits2 mx - 53) * c).
Proof.
  intros Hc Hr Hm He.
  pose proof (digits_ge_53 mx Hm) as Hd.
  unfold shr_fexp. rewrite fexp_normal by lia.
  replace (Zdigits2 mx + ex - 53 - ex) with (Zdigits2 mx - 53) by lia.
  pose proof (located_init mx r c Hc Hr ltac:(lia)) as Hinit.
  destruct (Zdigits2 mx - 53) as [|p|p] eqn:En; try lia.
  - eexists. split; [simpl; f_equal; lia|].
    rewrite Z.pow_0_r, Z.mul_1_l. exact Hinit.
  - eexists. split; [reflexivity|].
    apply located_iter_pos. exact Hinit.
Qed.

Lemma pow2_split (a b : Z) : 0 <= a -> 0 <= b -> 2 ^ (a + b) = 2 ^ a * 2 ^ b.
Proof. intros. apply Z.pow_add_r; assumption. Qed.

Lemma binary_round_aux_spec (s : bool) (mx ex r c : Z) :
  0 < c -> 0 <= r < c -> 2 ^ 52 <= mx ->
  -1074 <= Zdigits2 mx + ex - 53 -> Zdigits2 mx + ex - 53 < 971 ->
  exists (M : positive) (k : Z),
    binary_round_aux prec emax s mx ex (loc_of r c) = S754_finite s M (ex + k) /\
    2 ^ 52 <= Zpos M < 2 ^ 53 /\
    Zdigits2 mx - 53 <= k <= Zdigits2 mx - 52 /\
    - (2 ^ k * c) <= 2 * (Zpos M * 2 ^ k * c - (mx * c + r)) <= 2 ^ k * c.
Proof.
  intros Hc Hr Hm Hlo Hhi.
  pose proof (digits_ge_53 mx Hm) as Hd.
  destruct (Zdigits2_spec mx ltac:(lia)) as [_ Hdig].
  destruct (shr_fexp_spec mx ex r c Hc Hr Hm Hlo) as (mrs' & Hs & Hloc).
  unfold binary_round_aux. rewrite Hs.
  set (n1 := Zdigits2 mx - 53) in *.
  assert (Hn1 : 0 <= n1) by (unfold n1; lia).
  pose proof (Z.pow_pos_nonneg 2 n1 ltac:(lia) Hn1) as Hp.
  destruct (round_located mrs' _ _ Hloc) as [Hq Herr].
  set (m1 := round_nearest_even (shr_m mrs') (loc_of_shr_record mrs')) in *.
  assert (Hquot : (mx * c + r) / (2 ^ n1 * c) = mx / 2 ^ n1).
  { rewrite (Z.mul_comm (2 ^ n1) c), <- Z.div_div by lia.
    f_equal. symmetry. apply Z.div_unique with r; lia. }
  rewrite Hquot in Hq.
  assert (Hlow : 2 ^ 52 <= mx / 2 ^ n1).
  { apply Z.div_le_lower_bound; [lia|].
    rewrite <- pow2_split by lia.
    replace (n1 + 52) with (Zdigits2 mx - 1) by (unfold n1; lia). lia. }
  assert (Hupp : mx / 2 ^ n1 < 2 ^ 53).
  { apply Z.div_lt_upper_bound; [lia|].
    rewrite <- pow2_split by lia.
    replace (n1 + 53) with (Zdigits2 mx) by (unfold n1; lia). lia. }
  destruct (Z_lt_le_dec m1 (2 ^ 53)) as [Hlt|Hge].
  - (* no carry *)
    assert (Hd1 : Zdigits2 m1 = 53) by (apply Zdigits2_bounds; simpl Z.sub; lia).
    unfold shr_fexp. rewrite Hd1, fexp_normal by lia.
    replace (53 + (ex + n1) - 53 - (ex + n1)) with 0 by lia.
    simpl shr. simpl shr_m.
    destruct m1 as [|M|M] eqn:Em; try lia.
    unfold emax, prec.
    replace (ex + n1 <=? 1024 - 53) with true by (symmetry; apply Z.leb_le; lia).
    exists M, n1. repeat split; try lia.
  - (* the mantissa was rounded up to 2^53 *)
    assert (Em : m1 = 2 ^ 53) by lia.
    rewrite Em in *.
    unfold shr_fexp.
    change (Zdigits2 (2 ^ 53)) with 54. rewrite fexp_normal by lia.
    replace (54 + (ex + n1) - 53 - (ex + n1)) with 1 by lia.
    change (shr (shr_record_of_loc (2 ^ 53) loc_Exact) (ex + n1) 1)
      with (Build_shr_record (2 ^ 52) false false, ex + n1 + 1).
    simpl shr_m. change (2 ^ 52) with (Zpos (2 ^ 52)%positive) at 1.
    cbv iota.
    unfold emax, prec.
    replace (ex + n1 + 1 <=? 1024 - 53) with true by (symmetry; apply Z.leb_le; lia).
    exists (2 ^ 52)%positive, (n1 + 1). 
    replace (ex + (n1 + 1)) with (ex + n1 + 1) by lia.
    split; [reflexivity|]. split; [simpl; lia|]. split; [unfold n1; lia|].
    rewrite pow2_split, Z.pow_1_r by lia.
    change (Zpos (2 ^ 52)%positive) with (2 ^ 52).
    change (2 ^ 53) with (2 ^ 52 * 2) in Herr.
    assert (0 < 2 ^ n1 * c) by (apply Z.mul_pos_pos; lia).
    lia.
Qed.

Lemma binary_round_aux_exact (s : bool) (m : positive) (e : Z) :
  Zdigits2 (Zpos m) = 53 -> -1074 <= e <= 971 ->
  binary_round_aux prec emax s (Zpos m) e loc_Exact = S754_finite s m e.
Proof.
  intros Hd He.
  assert (Hs : shr_fexp prec emax (Zpos m) e loc_Exact
               = (Build_shr_record (Zpos m) false false, e)).
  { unfold shr_fexp. rewrite Hd, fexp_normal by lia.
    replace (53 + e - 53 - e) with 0 by lia. reflexivity. }
  unfold binary_round_aux. rewrite Hs.
  cbn [shr_m loc_of_shr_record round_nearest_even]. rewrite Hs. cbn [shr_m].
  unfold emax, prec.
  replace (e <=? 1024 - 53) with true by (symmetry; apply Z.leb_le; lia).
  reflexivity.
Qed.

Lemma pos_iter_xO (p k : positive) : Zpos (Pos.iter xO p k) = Zpos p * 2 ^ Zpos k.
Proof.
  induction k as [|k IH] using Pos.peano_ind.
  - simpl. lia.
  - rewrite Pos.iter_succ, Pos2Z.inj_xO, IH, Pos2Z.inj_succ, Z.pow_succ_r by lia. ring.
Qed.

Lemma float_of_int_exact (n : Z) :
  0 < n < 2 ^ 53 ->
  exists (m : positive) (e : Z),
    float_of_int n = S754_finite false m e /\
    2 ^ 52 <= Zpos m < 2 ^ 53 /\ -52 <= e <= 0 /\ Zpos m = n * 2 ^ (- e).
Proof.
  intros Hn. destruct n as [|p|p]; try lia.
  destruct (Zdigits2_spec (Zpos p) ltac:(lia)) as [Hd0 Hd].
  assert (Hd53 : Zdigits2 (Zpos p) <= 53).
  { destruct (Z_le_gt_dec (Zdigits2 (Zpos p)) 53) as [|Hgt]; [assumption|].
    assert (2 ^ 53 <= 2 ^ (Zdigits2 (Zpos p) - 1)) by (apply Z.pow_le_mono_r; lia). lia. }
  unfold float_of_int, binary_normalize, binary_round, shl_align.
  change (Zpos (digits2_pos p)) with (Zdigits2 (Zpos p)).
  rewrite fexp_normal by lia.
  remember (Zdigits2 (Zpos p)) as d eqn:Hdd. symmetry in Hdd.
  destruct (d + 0 - 53 - 0) as [|k|k] eqn:Ek; try lia.
  - assert (H53 : d = 53) by lia. rewrite H53 in *.
    rewrite binary_round_aux_exact by lia.
    change (53 - 1) with 52 in Hd.
    exists p, 0. repeat split; try lia.
  - assert (Hk : Zpos k = 53 - d) by lia.
    assert (Hmz : Zpos (Pos.iter xO p k) = Zpos p * 2 ^ (53 - d))
      by (rewrite pos_iter_xO, Hk; reflexivity).
    assert (Hb : 2 ^ 52 <= Zpos (Pos.iter xO p k) < 2 ^ 53).
    { rewrite Hmz.
      assert (E1 : 2 ^ 52 = 2 ^ (d - 1) * 2 ^ (53 - d))
        by (rewrite <- pow2_split by lia; f_equal; lia).
      assert (E2 : 2 ^ 53 = 2 ^ d * 2 ^ (53 - d))
        by (rewrite <- pow2_split by lia; f_equal; lia).
      rewrite E1, E2.
      pose proof (Z.pow_pos_nonneg 2 (53 - d) ltac:(lia) ltac:(lia)).
      split; [apply Z.mul_le_mono_nonneg_r; lia|apply Z.mul_lt_mono_pos_r; lia]. }
    rewrite binary_round_aux_exact.
    + exists (Pos.iter xO p k), (d + 0 - 53). repeat split; try lia.
      rewrite Hmz. f_equal. f_equal. lia.
    + apply Zdigits2_bounds; [lia|]. simpl Z.sub. exact Hb.
    + lia.
Qed.

Lemma new_location_loc_of (c r : Z) :
  0 < c -> 0 <= r < c -> new_location c r = loc_of r c.
Proof.
  intros Hc Hr. unfold new_location, new_location_even, new_location_odd, loc_of.
  destruct (Z.even c) eqn:Ev; destruct (Z.eqb_spec r 0) as [E0|E0]; try reflexivity.
  f_equal.
  assert (Hodd : Z.odd c = true) by (rewrite <- Z.negb_even, Ev; reflexivity).
  apply Z.odd_spec in Hodd. destruct Hodd as [h Hh].
  destruct (Z.compare_spec (2 * r + 1) c); destruct (Z.compare_spec (2 * r) c);
    try reflexivity; lia.
Qed.

Lemma normal53_digits (m : positive) : normal53 m -> Zdigits2 (Zpos m) = 53.
Proof. intros H. apply Zdigits2_bounds; [lia|exact H]. Qed.

Lemma SFdiv_spec (m1 m2 : positive) (e1 e2 : Z) :
  normal53 m1 -> normal53 m2 -> -200 <= e1 <= 200 -> -200 <= e2 <= 200 ->
  exists (M : positive) (k : Z),
    SFdiv prec emax (S754_finite false m1 e1) (S754_finite false m2 e2)
    = S754_finite false M (e1 - e2 - 53 + k) /\
    normal53 M /\ 0 <= k <= 2 /\
    - (2 ^ k * Zpos m2) <= 2 * (Zpos M * 2 ^ k * Zpos m2 - Zpos m1 * 2 ^ 53)
                        <= 2 ^ k * Zpos m2.
Proof.
  intros H1 H2 He1 He2.
  unfold SFdiv, SFdiv_core_binary.
  rewrite (normal53_digits m1 H1), (normal53_digits m2 H2).
  rewrite fexp_normal by lia.
  replace (Z.min (53 + e1 - (53 + e2) - 53) (e1 - e2)) with (e1 - e2 - 53) by lia.
  replace (e1 - e2 - (e1 - e2 - 53)) with 53 by lia.
  rewrite Z.shiftl_mul_pow2 by lia.
  set (N := Zpos m1 * 2 ^ 53).
  pose proof (Z.div_mod N (Zpos m2) ltac:(lia)) as Hdm.
  pose proof (Z.mod_pos_bound N (Zpos m2) ltac:(lia)) as Hr.
  assert (Hde : Z.div_eucl N (Zpos m2) = (N / Zpos m2, N mod Zpos m2)).
  { unfold Z.div, Z.modulo. destruct (Z.div_eucl N (Zpos m2)); reflexivity. }
  rewrite Hde.
  set (q := N / Zpos m2) in *. set (r := N mod Zpos m2) in *.
  rewrite new_location_loc_of by lia.
  cbv beta iota zeta. cbn [xorb].
  unfold normal53 in *.
  assert (Hq : 2 ^ 52 <= q < 2 ^ 54).
  { split.
    - apply Z.div_le_lower_bound; [lia|]. unfold N. lia.
    - apply Z.div_lt_upper_bound; [lia|]. unfold N. lia. }
  assert (Hdq : 53 <= Zdigits2 q <= 54).
  { split; [apply digits_ge_53; lia|].
    destruct (Zdigits2_spec q ltac:(lia)) as [_ [Hl _]].
    destruct (Z_le_gt_dec (Zdigits2 q) 54) as [|Hgt]; [assumption|].
    assert (2 ^ 54 <= 2 ^ (Zdigits2 q - 1)) by (apply Z.pow_le_mono_r; lia). lia. }
  destruct (binary_round_aux_spec false q (e1 - e2 - 53) r (Zpos m2))
    as (M & k & HM & Hn & Hk & Herr); try lia.
  exists M, k. rewrite HM. repeat split; lia.
Qed.

Lemma float_of_int_100 : float_of_int 100 = S754_finite false hundred_m (-46).
Proof. reflexivity. Qed.

Lemma SFmul_100_spec (m1 : positive) (e1 : Z) :
  normal53 m1 -> -200 <= e1 <= 200 ->
  exists (M : positive) (k : Z),
    SFmul prec emax (S754_finite false m1 e1) (float_of_int 100)
    = S754_finite false M (e1 - 46 + k) /\
    normal53 M /\ 52 <= k <= 54 /\
    - 2 ^ k <= 2 * (Zpos M * 2 ^ k - Zpos m1 * Zpos hundred_m) <= 2 ^ k.
Proof.
  intros H1 He1. rewrite float_of_int_100.
  unfold SFmul. cbn [xorb].
  change loc_Exact with (loc_of 0 1).
  rewrite Pos2Z.inj_mul.
  unfold normal53 in *.
  assert (Hh : Zpos hundred_m = 100 * 2 ^ 46) by reflexivity.
  set (mx := Zpos m1 * Zpos hundred_m).
  assert (Hmx : 2 ^ 104 <= mx < 2 ^ 106).
  { unfold mx. rewrite Hh. lia. }
  assert (Hdq : 105 <= Zdigits2 mx <= 106).
  { destruct (Zdigits2_spec mx ltac:(lia)) as [_ [Hl Hu]].
    split.
    - destruct (Z_lt_le_dec (Zdigits2 mx) 105) as [Hlt|]; [|assumption].
      assert (2 ^ Zdigits2 mx <= 2 ^ 104) by (apply Z.pow_le_mono_r; lia). lia.
    - destruct (Z_le_gt_dec (Zdigits2 mx) 106) as [|Hgt]; [assumption|].
      assert (2 ^ 106 <= 2 ^ (Zdigits2 mx - 1)) by (apply Z.pow_le_mono_r; lia). lia. }
  destruct (binary_round_aux_spec false mx (e1 + -46) 0 1)
    as (M & k & HM & Hn & Hk & Herr); try lia.
  exists M, k. rewrite HM. repeat split; lia.
Qed.

(** From the half-unit bound of a rounding to a relative bound. *)
Lemma relative_error (G N B : Z) :
  2 ^ 52 * B <= G -> - B <= 2 * (G - N) <= B ->
  (2 ^ 53 - 1) * G <= 2 ^ 53 * N /\ 2 ^ 53 * N <= (2 ^ 53 + 1) * G.
Proof.
  intros HB Herr. change (2 ^ 53) with (2 * 2 ^ 52). lia.
Qed.

Lemma percent_zero (t : Z) : 0 < t < 2 ^ 53 -> percent 0 t = Some 0.
Proof.
  intros Ht. destruct (float_of_int_exact t Ht) as (mt & et & Hft & _).
  unfold percent, true_div, mul_int. rewrite Hft. reflexivity.
Qed.

Lemma percent_scaled (d t : Z) :
  0 < d < 2 ^ 53 -> 0 < t < 2 ^ 53 ->
  exists P A S : Z,
    percent d t = Some P /\ 0 < S /\ 0 <= P /\
    P * t * S <= A < (P + 1) * t * S /\
    (2 ^ 53 - 1) ^ 2 * A <= 2 ^ 106 * (100 * d * S) /\
    2 ^ 106 * (100 * d * S) <= (2 ^ 53 + 1) ^ 2 * A.
Proof.
  intros Hd Ht.
  destruct (float_of_int_exact d Hd) as (md & ed & Hfd & Hnd & Hed & Hmd).
  destruct (float_of_int_exact t Ht) as (mt & et & Hft & Hnt & Het & Hmt).
  destruct (SFdiv_spec md mt ed et Hnd Hnt ltac:(lia) ltac:(lia))
    as (M1 & k1 & Hdiv & Hn1 & Hk1 & B1).
  destruct (SFmul_100_spec M1 (ed - et - 53 + k1) Hn1 ltac:(lia))
    as (M2 & k2 & Hmul & Hn2 & Hk2 & B2).
  unfold percent, true_div, mul_int. rewrite Hfd, Hft, Hdiv, Hmul.
  unfold int_of_float, cond_Zopp.
  set (E2 := ed - et - 53 + k1 - 46 + k2).
  (* the powers of two at play *)
  set (pa := 2 ^ (- ed)) in *. set (pb := 2 ^ (- et)) in *.
  set (q1 := 2 ^ k1) in *. set (q2 := 2 ^ k2) in *.
  assert (Hpa : 0 < pa) by (apply Z.pow_pos_nonneg; lia).
  assert (Hpb : 0 < pb) by (apply Z.pow_pos_nonneg; lia).
  assert (Hq1 : 0 < q1) by (apply Z.pow_pos_nonneg; lia).
  assert (Hq2 : 0 < q2) by (apply Z.pow_pos_nonneg; lia).
  unfold normal53 in *.
  set (F := q1 * pb * t).
  assert (HF : 0 < F) by (unfold F; repeat apply Z.mul_pos_pos; lia).
  set (W := Zpos M1 * F).
  set (D := d * pa * 2 ^ 53).
  set (A := Zpos M2 * q2 * F).
  set (S := pa * 2 ^ 99).
  assert (HS : 0 < S) by (unfold S; lia).
  (* the division *)
  assert (R1 : (2 ^ 53 - 1) * W <= 2 ^ 53 * D /\ 2 ^ 53 * D <= (2 ^ 53 + 1) * W).
  { apply (relative_error W D F).
    - unfold W. apply Z.mul_le_mono_nonneg_r; lia.
    - unfold W, D, F. rewrite Hmd, Hmt in B1.
      replace (Zpos M1 * (q1 * pb * t)) with (Zpos M1 * q1 * (t * pb)) by ring.
      replace (q1 * pb * t) with (q1 * (t * pb)) by ring. exact B1. }
  (* the multiplication, scaled by [F] *)
  assert (R2 : (2 ^ 53 - 1) * A <= 2 ^ 53 * (Zpos hundred_m * W) /\
               2 ^ 53 * (Zpos hundred_m * W) <= (2 ^ 53 + 1) * A).
  { apply (relative_error A (Zpos hundred_m * W) (q2 * F)).
    - unfold A. rewrite <- !Z.mul_assoc. apply Z.mul_le_mono_nonneg_r; [|lia].
      apply Z.mul_nonneg_nonneg; lia.
    - unfold A, W.
      replace (2 * (Zpos M2 * q2 * F - Zpos hundred_m * (Zpos M1 * F)))
        with ((2 * (Zpos M2 * q2 - Zpos M1 * Zpos hundred_m)) * F) by ring.
      replace (- (q2 * F)) with ((- q2) * F) by ring.
      split; apply Z.mul_le_mono_nonneg_r; lia. }
  assert (HC : Zpos hundred_m * D = 100 * d * S).
  { unfold D, S. change (Zpos hundred_m) with (100 * 2 ^ 46).
    change (2 ^ 99) with (2 ^ 46 * 2 ^ 53). ring. }
  (* the truncation *)
  assert (HP : exists P, (if 0 <=? E2 then Zpos M2 * 2 ^ E2 else Zpos M2 / 2 ^ (- E2)) = P /\
                         0 <= P /\ P * t * S <= A < (P + 1) * t * S).
  { destruct (Z.leb_spec 0 E2) as [Hpos|Hneg].
    - eexists. split; [reflexivity|].
      assert (HE : 2 ^ E2 * S = pb * q1 * q2).
      { unfold S, pa, pb, q1, q2. change (2 ^ 99) with (2 ^ 99).
        rewrite <- !pow2_split by lia. f_equal. unfold E2. lia. }
      assert (0 < 2 ^ E2) by (apply Z.pow_pos_nonneg; lia).
      split; [apply Z.mul_nonneg_nonneg; lia|].
      replace (Zpos M2 * 2 ^ E2 * t * S) with (Zpos M2 * t * (2 ^ E2 * S)) by ring.
      replace ((Zpos M2 * 2 ^ E2 + 1) * t * S)
        with (Zpos M2 * t * (2 ^ E2 * S) + t * S) by ring.
      rewrite HE. unfold A, F.
      assert (0 < t * S) by (apply Z.mul_pos_pos; lia).
      replace (Zpos M2 * q2 * (q1 * pb * t)) with (Zpos M2 * t * (pb * q1 * q2)) by ring.
      lia.
    - eexists. split; [reflexivity|].
      set (g := 2 ^ (- E2)).
      assert (Hg : 0 < g) by (apply Z.pow_pos_nonneg; lia).
      assert (HE : S = pb * q1 * q2 * g).
      { unfold S, pa, pb, q1, q2, g.
        rewrite <- !pow2_split by lia. f_equal. unfold E2. lia. }
      pose proof (Z.div_mod (Zpos M2) g ltac:(lia)) as Hdm.
      pose proof (Z.mod_pos_bound (Zpos M2) g Hg) as Hr.
      set (P := Zpos M2 / g) in *.
      assert (HP0 : 0 <= P) by (apply Z.div_pos; lia).
      split; [exact HP0|].
      assert (HG : P * g <= Zpos M2 < (P + 1) * g) by lia.
      rewrite HE. unfold A, F.
      set (K := t * pb * q1 * q2).
      assert (HK : 0 < K) by (unfold K; repeat apply Z.mul_pos_pos; lia).
      replace (P * t * (pb * q1 * q2 * g)) with (P * g * K) by (unfold K; ring).
      replace ((P + 1) * t * (pb * q1 * q2 * g)) with ((P + 1) * g * K) by (unfold K; ring).
      replace (Zpos M2 * q2 * (q1 * pb * t)) with (Zpos M2 * K) by (unfold K; ring).
      split; [apply Z.mul_le_mono_nonneg_r; lia|apply Z.mul_lt_mono_pos_r; lia]. }
  destruct HP as (P & -> & HP0 & HPA).
  exists P, A, S. split; [reflexivity|]. split; [exact HS|]. split; [exact HP0|].
  split; [exact HPA|].
  rewrite <- HC.
  change ((2 ^ 53 - 1) ^ 2) with ((2 ^ 53 - 1) * (2 ^ 53 - 1)).
  change ((2 ^ 53 + 1) ^ 2) with ((2 ^ 53 + 1) * (2 ^ 53 + 1)).
  change (2 ^ 106) with (2 ^ 53 * 2 ^ 53).
  change (Zpos hundred_m) with 7036874417766400 in *.
  change (2 ^ 53) with 9007199254740992 in *.
  destruct R1 as [R1a R1b]. destruct R2 as [R2a R2b].
  clearbody A W D. clear - R1a R1b R2a R2b.
  split; lia.
Qed.

Lemma percent_total (d t : Z) :
  0 <= d < 2 ^ 53 -> 0 < t < 2 ^ 53 -> exists P, percent d t = Some P /\ 0 <= P.
Proof.
  intros Hd Ht. destruct (Z.eq_dec d 0) as [->|Hne].
  - exists 0. split; [apply percent_zero; exact Ht|lia].
  - destruct (percent_scaled d t ltac:(lia) Ht) as (P & A & S & HP & _ & HP0 & _).
    exists P. auto.
Qed.


(** The percentage computed in binary64 does not decrease when more bytes
    have been transferred. *)
Lemma percent_mono (d1 d2 t P1 P2 : Z) :
  0 <= d1 <= d2 -> d2 < 2 ^ 50 -> 0 < t < 2 ^ 53 ->
  percent d1 t = Some P1 -> percent d2 t = Some P2 -> P1 <= P2.
Proof.
  intros Hd Hd2 Ht H1 H2.
  destruct (Z.eq_dec d1 d2) as [->|Hne].
  { rewrite H1 in H2. injection H2 as ->. lia. }
  assert (H53 : 2 ^ 50 <= 2 ^ 53) by (apply Z.pow_le_mono_r; lia).
  destruct (Z.eq_dec d1 0) as [->|Hne1].
  { rewrite percent_zero in H1 by exact Ht. injection H1 as <-.
    destruct (percent_scaled d2 t ltac:(lia) Ht) as (P & _ & _ & HP & _ & HP0 & _).
    rewrite HP in H2. injection H2 as <-. exact HP0. }
  destruct (percent_scaled d1 t ltac:(lia) Ht)
    as (Q1 & A1 & S1 & HQ1 & HS1 & _ & HA1 & Hlo1 & _).
  destruct (percent_scaled d2 t ltac:(lia) Ht)
    as (Q2 & A2 & S2 & HQ2 & HS2 & _ & HA2 & _ & Hhi2).
  rewrite HQ1 in H1. injection H1 as ->. rewrite HQ2 in H2. injection H2 as ->.
  destruct (Z_le_gt_dec P1 P2) as [|Hgt]; [assumption|exfalso].
  set (SS := S1 * S2).
  assert (HSS : 0 < SS) by (unfold SS; apply Z.mul_pos_pos; lia).
  (* everything at the common scale [S1 * S2] *)
  assert (E1 : P1 * t * SS <= A1 * S2).
  { unfold SS. replace (P1 * t * (S1 * S2)) with (P1 * t * S1 * S2) by ring.
    apply Z.mul_le_mono_nonneg_r; lia. }
  assert (E2 : A2 * S1 < (P2 + 1) * t * SS).
  { unfold SS. replace ((P2 + 1) * t * (S1 * S2)) with ((P2 + 1) * t * S2 * S1) by ring.
    apply Z.mul_lt_mono_pos_r; lia. }
  assert (E3 : (P2 + 1) * t * SS <= P1 * t * SS).
  { apply Z.mul_le_mono_nonneg_r; [lia|]. apply Z.mul_le_mono_nonneg_r; lia. }
  assert (E4 : (2 ^ 53 - 1) ^ 2 * (A1 * S2) <= 2 ^ 106 * (100 * (d1 * SS))).
  { unfold SS. replace (2 ^ 106 * (100 * (d1 * (S1 * S2))))
      with (2 ^ 106 * (100 * d1 * S1) * S2) by ring.
    rewrite Z.mul_assoc. apply Z.mul_le_mono_nonneg_r; lia. }
  assert (E5 : 2 ^ 106 * (100 * (d2 * SS)) <= (2 ^ 53 + 1) ^ 2 * (A2 * S1)).
  { unfold SS. replace (2 ^ 106 * (100 * (d2 * (S1 * S2))))
      with (2 ^ 106 * (100 * d2 * S2) * S1) by ring.
    rewrite (Z.mul_assoc _ A2 S1). apply Z.mul_le_mono_nonneg_r; lia. }
  assert (E6 : (d1 + 1) * SS <= d2 * SS) by (apply Z.mul_le_mono_nonneg_r; lia).
  assert (E7 : d1 * SS <= (2 ^ 50 - 1) * SS) by (apply Z.mul_le_mono_nonneg_r; lia).
  replace ((d1 + 1) * SS) with (d1 * SS + SS) in E6 by ring.
  change ((2 ^ 53 - 1) ^ 2) with 81129638414606663681390495662081 in E4.
  change ((2 ^ 53 + 1) ^ 2) with 81129638414606699710187514626049 in E5.
  change (2 ^ 106) with 81129638414606681695789005144064 in E4, E5.
  change (2 ^ 50 - 1) with 1125899906842623 in E7.
  clearbody SS. lia.
Qed.

End Binary64.

(** * Properties of the worker *)

Section Worker.

Variable self : DownloadThread.t.
Variable env : environment.

Local Abbreviation path := (DownloadThread.save_path self).
Local Abbreviation ident := (DownloadThread.download_id self).
Local Abbreviation flag_at := (DownloadThread.flag_at self env).

Lemma world_eta (w : world) : World (fs w) (trace w) = w.
Proof. destruct w; reflexivity. Qed.

Lemma body_size_nonneg (chunks : list chunk) : 0 <= body_size chunks.
Proof.
  induction chunks as [|[d|m] chunks IH]; simpl; lia.
Qed.

Lemma f_write_cases (k : nat) (data : bytes) (w : world) :
  (exists msg, DownloadThread.f_write env path k data w = (Raise (Exception msg), w)) \/
  DownloadThread.f_write env path k data w =
  (Ok tt, World (<[path := (default [] (fs w !! path) ++ data)%list]> (fs w))
                (trace w ++ [AWrite path data])).
Proof.
  unfold DownloadThread.f_write.
  destruct (write_error env) as [[j msg]|].
  - destruct (j =? k)%nat.
    + left. exists msg. reflexivity.
    + right. reflexivity.
  - right. reflexivity.
Qed.

(** The loop performs the steps that [loop_run] describes, and leaves in
    the file what it has written. *)
Lemma iter_content_loop_sound (total_size : Z) (chunks : list chunk) :
  forall (k : nat) (downloaded : Z) (w : world) (c : bytes),
    fs w !! path = Some c ->
    exists t r,
      DownloadThread.iter_content_loop self env total_size chunks k downloaded w
      = (r, World (<[path := (c ++ concat (writes_of t))%list]> (fs w)) (trace w ++ t)) /\
      loop_run self env total_size (length (trace w)) downloaded t r /\
      fold_right Z.add 0 (write_sizes t) <= body_size chunks.
Proof.
  induction chunks as [|[data|msg] chunks IH]; intros k downloaded w c Hc.
  - exists [], (Ok tt). simpl. split; [|split; [constructor|lia]].
    unfold ret. rewrite !app_nil_r, insert_id by exact Hc.
    rewrite world_eta. reflexivity.
  - cbn [DownloadThread.iter_content_loop].
    unfold bind at 1. unfold DownloadThread.read_flag at 1.
    destruct (flag_at (length (trace w))) eqn:Hflag.
    + exists [AFlag ChunkCheck true], (Raise (InterruptedError DownloadThread.interrupted_message)).
      split; [|split].
      * unfold raise. simpl. rewrite app_nil_r, insert_id by exact Hc. reflexivity.
      * constructor. exact Hflag.
      * simpl. pose proof (body_size_nonneg chunks). lia.
    + unfold bind at 1.
      match goal with |- context [DownloadThread.f_write env path k data ?w1] =>
        destruct (f_write_cases k data w1) as [[msg Hw]|Hw]; rewrite Hw end.
      * exists [AFlag ChunkCheck false], (Raise (Exception msg)).
        split; [|split].
        -- simpl. rewrite app_nil_r, insert_id by exact Hc. reflexivity.
        -- constructor. exact Hflag.
        -- simpl. pose proof (body_size_nonneg chunks). lia.
      * cbn [fs trace]. rewrite Hc. cbn [default].
        destruct (DownloadThread.percent (downloaded + Z.of_nat (length data)) total_size)
          as [progress|] eqn:Hp.
        -- unfold bind at 1. unfold DownloadThread.emit at 1. unfold step at 1.
           cbn [fs trace id].
           match goal with |- context [DownloadThread.iter_content_loop _ _ _ _ _ _ ?w3] =>
             destruct (IH (S k) (downloaded + Z.of_nat (length data)) w3 (c ++ data)%list)
               as (t & r & Hrun & Hloop & Hsz)
           end.
           { cbn [fs]. apply lookup_insert_eq. }
           exists (AFlag ChunkCheck false :: AWrite path data ::
                   AEmit (progress_signal ident progress) :: t), r.
           split; [|split].
           ++ unfold id in *. rewrite Hrun. cbn [fs trace]. f_equal. f_equal.
              ** rewrite insert_insert_eq. f_equal. simpl. rewrite app_assoc. reflexivity.
              ** rewrite <- !app_assoc. reflexivity.
           ++ constructor; [exact Hflag|exact Hp|].
              cbn [trace] in Hloop. rewrite !length_app in Hloop. simpl in Hloop.
              replace (3 + length (trace w))%nat with (length (trace w) + 1 + 1 + 1)%nat by lia.
              exact Hloop.
           ++ unfold write_sizes in *. simpl. lia.
        -- exists [AFlag ChunkCheck false; AWrite path data],
             (Raise (Exception "cannot convert float infinity to integer")).
           split; [|split].
           ++ unfold raise. simpl. rewrite app_nil_r, <- app_assoc. reflexivity.
           ++ constructor; assumption.
           ++ unfold write_sizes. simpl. pose proof (body_size_nonneg chunks). lia.
  - exists [], (Raise (Exception msg)). simpl. split; [|split; [constructor|]].
    + unfold raise. rewrite !app_nil_r, insert_id by exact Hc.
      rewrite world_eta. reflexivity.
    + apply body_size_nonneg.
Qed.

Lemma content_cases (chunks : list chunk) (w : world) :
  (exists data, DownloadThread.content chunks w = (Ok data, w)) \/
  (exists msg, DownloadThread.content chunks w = (Raise (Exception msg), w)).
Proof.
  induction chunks as [|[d|m] chunks IH]; simpl.
  - left. eexists. reflexivity.
  - unfold bind. destruct IH as [[data ->]|[msg ->]].
    + left. eexists. reflexivity.
    + right. eexists. reflexivity.
  - right. eexists. reflexivity.
Qed.

Lemma completion_run (w : world) :
  (b <- DownloadThread.read_flag self env CompletionCheck ;;
   if negb b then DownloadThread.emit (finished_signal ident) else ret tt) w
  = (Ok tt, World (fs w) (trace w ++ completion self env (length (trace w)))).
Proof.
  unfold bind, DownloadThread.read_flag, completion.
  destruct (flag_at (length (trace w))); simpl.
  - reflexivity.
  - unfold DownloadThread.emit, step, id. simpl. rewrite <- app_assoc. reflexivity.
Qed.

Lemma writes_of_app (t1 t2 : list action) :
  writes_of (t1 ++ t2) = (writes_of t1 ++ writes_of t2)%list.
Proof. apply flat_map_app. Qed.

Lemma events_of_app (t1 t2 : list action) :
  events_of (t1 ++ t2) = (events_of t1 ++ events_of t2)%list.
Proof. apply flat_map_app. Qed.

Lemma writes_of_completion (n : nat) : writes_of (completion self env n) = [].
Proof. unfold completion. destruct (flag_at n); reflexivity. Qed.

(** The body of the [try] statement performs the steps that [body_run]
    describes. *)
Lemma try_body_sound (fs0 : gmap string bytes) :
  exists t r,
    DownloadThread.try_body self env (World fs0 []) = (r, World (body_fs self fs0 t) t) /\
    body_run self env t r.
Proof.
  unfold DownloadThread.try_body.
  unfold bind at 1. unfold DownloadThread.requests_get.
  destruct (get_result env) as [msg|resp] eqn:Hget.
  { exists [], (Raise (Exception msg)). split; [reflexivity|constructor]. }
  unfold ret at 1. unfold bind at 1. unfold DownloadThread.raise_for_status.
  destruct (status_error resp) as [msg|].
  { exists [], (Raise (Exception msg)). split; [reflexivity|constructor]. }
  unfold ret at 1. unfold bind at 1. unfold DownloadThread.total_size_of.
  destruct (content_length resp) as [|n|raw] eqn:Hlen;
    [| |eexists [], (Raise (Exception _)); split; [reflexivity|constructor]].
  - (* no header: the bulk path *)
    unfold ret at 1. unfold bind at 1. unfold DownloadThread.open_wb.
    destruct (open_error env) as [msg|].
    { exists [], (Raise (Exception msg)). split; [reflexivity|constructor]. }
    unfold step at 1. cbn [fs trace app Z.eqb].
    unfold bind at 1. unfold bind at 1. unfold DownloadThread.read_flag at 1.
    cbn [fs trace length].
    destruct (flag_at 1) eqn:Hflag; cbn [negb].
    + unfold ret at 1. rewrite completion_run. cbn [fs trace length app].
      eexists _, (Ok tt). split; [|apply body_bulk_skipped; exact Hflag].
      unfold body_fs. cbn [opened existsb orb app].
      unfold writes_of. cbn [flat_map app]. fold (writes_of (completion self env 2)).
      rewrite writes_of_completion. reflexivity.
    + unfold bind at 1.
      match goal with |- context [DownloadThread.content ?b ?w1] =>
        destruct (content_cases b w1) as [[data Hd]|[msg Hd]]; rewrite Hd end.
      * match goal with |- context [DownloadThread.f_write env path 0 data ?w1] =>
          destruct (f_write_cases 0 data w1) as [[msg Hw]|Hw]; rewrite Hw end.
        -- eexists _, (Raise (Exception msg)).
           split; [|apply body_bulk_fault; exact Hflag]. reflexivity.
        -- rewrite completion_run. cbn [fs trace length app].
           eexists _, (Ok tt). split; [|apply (body_bulk_written _ _ data); exact Hflag].
           unfold body_fs. cbn [opened existsb orb app].
           rewrite lookup_insert_eq, insert_insert_eq. cbn [default app].
           change (writes_of (AOpen path :: AFlag BulkWriteCheck false :: AWrite path data
                              :: completion self env 3))
             with (data :: writes_of (completion self env 3)).
           rewrite writes_of_completion. simpl. rewrite app_nil_r. reflexivity.
      * eexists _, (Raise (Exception msg)).
        split; [|apply body_bulk_fault; exact Hflag]. reflexivity.
  - (* a numeric header *)
    unfold ret at 1. unfold bind at 1. unfold DownloadThread.open_wb.
    destruct (open_error env) as [msg|].
    { exists [], (Raise (Exception msg)). split; [reflexivity|constructor]. }
    unfold step at 1. cbn [fs trace app].
    destruct (n =? 0) eqn:Hn.
    + unfold bind at 1. unfold bind at 1. unfold DownloadThread.read_flag at 1.
      cbn [fs trace length].
      destruct (flag_at 1) eqn:Hflag; cbn [negb].
      * unfold ret at 1. rewrite completion_run. cbn [fs trace length app].
        eexists _, (Ok tt). split; [|apply body_bulk_skipped; exact Hflag].
        unfold body_fs. cbn [opened existsb orb app].
        unfold writes_of. cbn [flat_map app]. fold (writes_of (completion self env 2)).
        rewrite writes_of_completion. reflexivity.
      * unfold bind at 1.
        match goal with |- context [DownloadThread.content ?b ?w1] =>
          destruct (content_cases b w1) as [[data Hd]|[msg Hd]]; rewrite Hd end.
        -- match goal with |- context [DownloadThread.f_write env path 0 data ?w1] =>
             destruct (f_write_cases 0 data w1) as [[msg Hw]|Hw]; rewrite Hw end.
           ++ eexists _, (Raise (Exception msg)).
              split; [|apply body_bulk_fault; exact Hflag]. reflexivity.
           ++ rewrite completion_run. cbn [fs trace length app].
              eexists _, (Ok tt). split; [|apply (body_bulk_written _ _ data); exact Hflag].
              unfold body_fs. cbn [opened existsb orb app].
              rewrite lookup_insert_eq, insert_insert_eq. cbn [default app].
              change (writes_of (AOpen path :: AFlag BulkWriteCheck false :: AWrite path data
                                 :: completion self env 3))
                with (data :: writes_of (completion self env 3)).
              rewrite writes_of_completion. simpl. rewrite app_nil_r. reflexivity.
        -- eexists _, (Raise (Exception msg)).
           split; [|apply body_bulk_fault; exact Hflag]. reflexivity.
    + unfold bind at 1.
      destruct (iter_content_loop_sound n (body resp) 0 0
                  (World (<[path := []]> fs0) [AOpen path]) [])
        as (t & r & Hrun & Hloop & Hsize).
      { cbn [fs]. apply lookup_insert_eq. }
      rewrite Hrun. cbn [fs trace app length] in *.
      rewrite insert_insert_eq.
      destruct r as [[]|e].
      * rewrite completion_run. cbn [fs trace length app].
        eexists _, (Ok tt). split; [|apply (body_loop_done _ _ resp n); eassumption].
        unfold body_fs. cbn [opened existsb orb].
        change (writes_of (AOpen path :: t ++ completion self env (S (length t))))
          with (writes_of (t ++ completion self env (S (length t)))).
        rewrite writes_of_app, writes_of_completion, app_nil_r. reflexivity.
      * eexists _, (Raise e). split; [|apply (body_loop_raise _ _ resp n); eassumption].
        reflexivity.
Qed.

(** [run] performs the steps of the body, then those of the handler. *)
Lemma run_sound (fs0 : gmap string bytes) :
  exists t r,
    DownloadThread.try_body self env (World fs0 []) = (r, World (body_fs self fs0 t) t) /\
    body_run self env t r /\
    DownloadThread.execute self env fs0
    = World (final_fs self fs0 t r) (t ++ handler_steps self r).
Proof.
  destruct (try_body_sound fs0) as (t & r & Hbody & Hrun).
  exists t, r. split; [exact Hbody|]. split; [exact Hrun|].
  unfold DownloadThread.execute, DownloadThread.run. rewrite Hbody.
  destruct r as [[]|[msg|msg]]; simpl.
  - rewrite app_nil_r. reflexivity.
  - inversion Hrun; subst.
    unfold bind, DownloadThread.emit, step, DownloadThread.cleanup, id. simpl.
    unfold body_fs. simpl. rewrite lookup_insert_eq.
    unfold step. simpl. rewrite <- app_assoc. reflexivity.
  - reflexivity.
Qed.

Lemma flag_at_mono (i j : nat) :
  (i <= j)%nat -> flag_at i = true -> flag_at j = true.
Proof.
  unfold DownloadThread.flag_at. intros Hij.
  destruct (DownloadThread._is_interrupted self); [reflexivity|]. simpl.
  destruct (interrupt_at env) as [k|]; [|discriminate].
  intros H. apply Nat.leb_le in H. apply Nat.leb_le. lia.
Qed.

Lemma guarded_weaken (t : list action) (n : nat) (prev : bool) :
  guarded self env n false t = true -> guarded self env n prev t = true.
Proof.
  destruct t as [|[| | | |] t]; simpl; auto. discriminate.
Qed.

Lemma guarded_app (t1 t2 : list action) :
  forall (n : nat) (prev : bool),
    guarded self env n prev t1 = true ->
    guarded self env (n + length t1) false t2 = true ->
    guarded self env n prev (t1 ++ t2) = true.
Proof.
  induction t1 as [|a t1 IH]; intros n prev H1 H2.
  - simpl in *. rewrite Nat.add_0_r in H2. apply guarded_weaken. exact H2.
  - simpl in H2. rewrite <- Nat.add_succ_comm in H2.
    destruct a; simpl in *;
      repeat match goal with H : _ && _ = true |- _ => apply andb_prop in H; destruct H end;
      repeat (apply andb_true_intro; split); auto.
Qed.

Lemma guarded_flag (t : list action) :
  forall (n : nat) (prev : bool) (i : nat) site b,
    guarded self env n prev t = true ->
    t !! i = Some (AFlag site b) -> b = flag_at (n + i).
Proof.
  induction t as [|a t IH]; intros n prev i site b Hg Hi; [discriminate|].
  destruct i as [|i].
  - simpl in Hi. injection Hi as ->. simpl in Hg.
    apply andb_prop in Hg. destruct Hg as [Hb _].
    rewrite Nat.add_0_r. apply Bool.eqb_prop. exact Hb.
  - simpl in Hi. rewrite <- Nat.add_succ_comm.
    destruct a; simpl in Hg;
      repeat match goal with H : _ && _ = true |- _ => apply andb_prop in H; destruct H end;
      eapply IH; eauto.
Qed.

Lemma guarded_write (t : list action) :
  forall (n : nat) (prev : bool) (j : nat) p d,
    guarded self env n prev t = true ->
    t !! j = Some (AWrite p d) ->
    (j = 0%nat /\ prev = true) \/
    exists j' site, j = S j' /\ t !! j' = Some (AFlag site false) /\
                    site <> CompletionCheck.
Proof.
  induction t as [|a t IH]; intros n prev j p d Hg Hj; [discriminate|].
  destruct j as [|j].
  - simpl in Hj. injection Hj as ->. simpl in Hg.
    apply andb_prop in Hg. left. tauto.
  - simpl in Hj. right.
    assert (Hnext : exists prev', guarded self env (S n) prev' t = true /\
              (prev' = true -> exists site, a = AFlag site false /\ site <> CompletionCheck)).
    { destruct a as [site b| | | |]; simpl in Hg;
        repeat match goal with H : _ && _ = true |- _ => apply andb_prop in H; destruct H end;
        try (exists false; split; [assumption|discriminate]).
      eexists. split; [eassumption|].
      destruct site, b; try discriminate; intros _; eexists; split; try reflexivity; discriminate. }
    destruct Hnext as (prev' & Hg' & Hprev).
    destruct (IH _ _ _ _ _ Hg' Hj) as [[-> Hp]|(j' & site & -> & Hl & Hs)].
    + destruct (Hprev Hp) as (site & -> & Hs). exists 0%nat, site. auto.
    + exists (S j'), site. auto.
Qed.

Lemma loop_run_guarded (total_size : Z) (n : nat) (downloaded : Z)
    (t : list action) (r : result unit) :
  loop_run self env total_size n downloaded t r ->
  guarded self env n false t = true.
Proof.
  induction 1; simpl;
    repeat match goal with H : flag_at _ = _ |- _ => rewrite H; clear H end;
    simpl; auto.
Qed.

Lemma completion_guarded (n : nat) : guarded self env n false (completion self env n) = true.
Proof.
  unfold completion. simpl. rewrite Bool.eqb_reflx.
  destruct (flag_at n); reflexivity.
Qed.

Lemma body_run_guarded (t : list action) (r : result unit) :
  body_run self env t r -> guarded self env 0 false t = true.
Proof.
  destruct 1.
  - reflexivity.
  - apply (guarded_app [AOpen path; AFlag BulkWriteCheck true]);
      [simpl; rewrite H; reflexivity|apply completion_guarded].
  - simpl. rewrite H. reflexivity.
  - apply (guarded_app [AOpen path; AFlag BulkWriteCheck false; AWrite path data]);
      [simpl; rewrite H; reflexivity|apply completion_guarded].
  - simpl. eapply loop_run_guarded; eauto.
  - apply (guarded_app (AOpen path :: t)).
    + simpl. eapply loop_run_guarded; eauto.
    + apply completion_guarded.
Qed.

Lemma handler_steps_guarded (n : nat) (r : result unit) :
  guarded self env n false (handler_steps self r) = true.
Proof. destruct r as [[]|[msg|msg]]; reflexivity. Qed.

Lemma execute_guarded (fs0 : gmap string bytes) :
  guarded self env 0 false (trace (DownloadThread.execute self env fs0)) = true.
Proof.
  destruct (run_sound fs0) as (t & r & _ & Hrun & ->). simpl.
  apply guarded_app; [eapply body_run_guarded; eauto|apply handler_steps_guarded].
Qed.

Lemma lookup_flag_write (t : list action) (i : nat) site b p d :
  t !! i = Some (AFlag site b) -> t !! i = Some (AWrite p d) -> False.
Proof. intros H1 H2. rewrite H1 in H2. discriminate. Qed.

(** C3, amended.  In every execution of [run]: each check records the
    value the flag has at that step; every write to the file comes
    immediately after a check (before the bulk write, or at the chunk
    boundary) that found the flag unset; no write follows a check that found
    the flag set; and at most one write happens with the flag set, the one
    whose check had passed just before [interrupt()] ran. *)
Theorem writes_follow_checks (fs0 : gmap string bytes) :
  let T := trace (DownloadThread.execute self env fs0) in
  (forall (i : nat) site b, T !! i = Some (AFlag site b) -> b = flag_at i) /\
  (forall (j : nat) p d,
      T !! j = Some (AWrite p d) ->
      exists j' site, j = S j' /\ T !! j' = Some (AFlag site false) /\
                      (site = BulkWriteCheck \/ site = ChunkCheck)) /\
  (forall (i j : nat) site p d,
      T !! i = Some (AFlag site true) -> T !! j = Some (AWrite p d) -> (j < i)%nat) /\
  (forall (j1 j2 : nat) p1 d1 p2 d2,
      T !! j1 = Some (AWrite p1 d1) -> T !! j2 = Some (AWrite p2 d2) ->
      flag_at j1 = true -> flag_at j2 = true -> j1 = j2).
Proof.
  intros T. pose proof (execute_guarded fs0) as Hg. fold T in Hg.
  assert (HF : forall (i : nat) site b, T !! i = Some (AFlag site b) -> b = flag_at i).
  { intros i site b Hi. apply (guarded_flag T 0 false i site b Hg Hi). }
  assert (HW : forall (j : nat) p d,
             T !! j = Some (AWrite p d) ->
             exists j' site, j = S j' /\ T !! j' = Some (AFlag site false) /\
                             (site = BulkWriteCheck \/ site = ChunkCheck)).
  { intros j p d Hj.
    destruct (guarded_write T 0 false j p d Hg Hj) as [[_ H]|(j' & site & -> & Hl & Hs)];
      [discriminate|].
    exists j', site. repeat split; auto. destruct site; auto. congruence. }
  assert (HU : forall (j : nat) p d,
             T !! j = Some (AWrite p d) -> exists j', j = S j' /\ flag_at j' = false).
  { intros j p d Hj. destruct (HW j p d Hj) as (j' & site & -> & Hl & _).
    exists j'. split; [reflexivity|]. symmetry. exact (HF _ _ _ Hl). }
  repeat split.
  - exact HF.
  - exact HW.
  - intros i j site p d Hi Hj.
    destruct (HU j p d Hj) as (j' & -> & Hu).
    pose proof (HF _ _ _ Hi) as Ht. symmetry in Ht.
    destruct (Nat.le_gt_cases i j') as [Hle|Hgt].
    + rewrite (flag_at_mono i j' Hle Ht) in Hu. discriminate.
    + destruct (Nat.eq_dec i (S j')) as [->|Hne]; [|lia].
      exfalso. eapply lookup_flag_write; eauto.
  - intros j1 j2 p1 d1 p2 d2 H1 H2 F1 F2.
    destruct (HU j1 p1 d1 H1) as (j1' & -> & U1).
    destruct (HU j2 p2 d2 H2) as (j2' & -> & U2).
    destruct (Nat.lt_trichotomy j1' j2') as [Hlt|[->|Hlt]]; [|reflexivity|].
    + rewrite (flag_at_mono (S j1') j2' Hlt F1) in U2. discriminate.
    + rewrite (flag_at_mono (S j2') j1' Hlt F2) in U1. discriminate.
Qed.

Lemma loop_run_events (total_size : Z) (n : nat) (downloaded : Z)
    (t : list action) (r : result unit) :
  loop_run self env total_size n downloaded t r ->
  exists ps, events_of t = map (progress_signal ident) ps.
Proof.
  induction 1; try (exists []; reflexivity).
  destruct IHloop_run as [ps Hps].
  exists (progress :: ps). simpl. rewrite <- Hps. reflexivity.
Qed.

Lemma events_of_completion (n : nat) :
  events_of (completion self env n)
  = if flag_at n then [] else [finished_signal ident].
Proof. unfold completion. destruct (flag_at n); reflexivity. Qed.










Lemma opened_app (t1 t2 : list action) : opened (t1 ++ t2) = opened t1 || opened t2.
Proof. unfold opened. apply existsb_app. Qed.





Lemma prefix_sums_lookup (l : list Z) :
  Forall (fun x => 0 <= x) l ->
  forall (acc : Z) (i : nat) a,
    prefix_sums acc l !! i = Some a -> acc <= a <= acc + fold_right Z.add 0 l.
Proof.
  induction 1 as [|x l Hx Hl IH]; intros acc i a Hi; [discriminate|].
  assert (Hsum : 0 <= fold_right Z.add 0 l).
  { clear - Hl. induction Hl; simpl; lia. }
  destruct i as [|i]; simpl in *.
  - injection Hi as <-. lia.
  - apply IH in Hi. lia.
Qed.


Lemma write_sizes_nonneg (t : list action) : Forall (fun x => 0 <= x) (write_sizes t).
Proof.
  unfold write_sizes. induction (writes_of t) as [|d l IH]; simpl; constructor.
  - lia.
  - exact IH.
Qed.

Lemma write_sizes_app (t1 t2 : list action) :
  write_sizes (t1 ++ t2) = (write_sizes t1 ++ write_sizes t2)%list.
Proof. unfold write_sizes. rewrite writes_of_app. apply map_app. Qed.

Lemma progress_values_app (e1 e2 : list event) :
  progress_values (e1 ++ e2) = (progress_values e1 ++ progress_values e2)%list.
Proof. apply flat_map_app. Qed.

(** Each progress event of the loop carries the percentage computed from
    the bytes written so far, the chunk before the event included. *)
Lemma loop_run_progress (total_size : Z) (n : nat) (downloaded : Z)
    (t : list action) (r : result unit) :
  loop_run self env total_size n downloaded t r ->
  forall (i : nat) p,
    progress_values (events_of t) !! i = Some p ->
    exists b, prefix_sums downloaded (write_sizes t) !! i = Some b /\
              DownloadThread.percent b total_size = Some p.
Proof.
  induction 1; intros i p Hi; try discriminate.
  destruct i as [|i].
  - simpl in Hi. injection Hi as <-. eexists. split; [reflexivity|]. assumption.
  - apply IHloop_run in Hi. exact Hi.
Qed.

Lemma progress_values_completion (k : nat) :
  progress_values (events_of (completion self env k)) = [].
Proof. rewrite events_of_completion. destruct (flag_at k); reflexivity. Qed.

Lemma progress_values_handler (r : result unit) :
  progress_values (events_of (handler_steps self r)) = [].
Proof. destruct r as [[]|[m|m]]; reflexivity. Qed.

Lemma write_sizes_handler (r : result unit) : write_sizes (handler_steps self r) = [].
Proof. destruct r as [[]|[m|m]]; reflexivity. Qed.

Lemma write_sizes_completion (k : nat) : write_sizes (completion self env k) = [].
Proof. unfold write_sizes. rewrite writes_of_completion. reflexivity. Qed.

(** The progress events of a whole run, when the total size was declared. *)
Lemma execute_progress (fs0 : gmap string bytes) (resp : response) (total : Z) :
  get_result env = inr resp -> content_length resp = HeaderInt total ->
  forall (i : nat) p,
    progress_values (DownloadThread.emitted self env fs0) !! i = Some p ->
    exists b,
      prefix_sums 0 (write_sizes (trace (DownloadThread.execute self env fs0))) !! i = Some b /\
      DownloadThread.percent b total = Some p /\
      0 <= b <= body_size (body resp).
Proof.
  intros Hget Hlen i p. unfold DownloadThread.emitted.
  destruct (run_sound fs0) as (t & r & _ & Hrun & ->). cbn [trace].
  rewrite events_of_app, progress_values_app, progress_values_handler, app_nil_r.
  rewrite write_sizes_app, write_sizes_handler, app_nil_r.
  destruct Hrun as [msg|Hf|msg Hf|data Hf|resp' total' t e Hget' Hlen' Hsize Hloop
                    |resp' total' t Hget' Hlen' Hsize Hloop].
  - discriminate.
  - rewrite events_of_app, progress_values_app, progress_values_completion. discriminate.
  - discriminate.
  - rewrite events_of_app, progress_values_app, progress_values_completion. discriminate.
  - rewrite Hget in Hget'. injection Hget' as <-.
    rewrite Hlen in Hlen'. injection Hlen' as <-.
    change (events_of (AOpen path :: t)) with (events_of t).
    change (write_sizes (AOpen path :: t)) with (write_sizes t).
    intros Hi. destruct (loop_run_progress _ _ _ _ _ Hloop i p Hi) as (b & Hb & Hp).
    exists b. split; [exact Hb|]. split; [exact Hp|].
    pose proof (prefix_sums_lookup _ (write_sizes_nonneg t) _ _ _ Hb). lia.
  - rewrite Hget in Hget'. injection Hget' as <-.
    rewrite Hlen in Hlen'. injection Hlen' as <-.
    change (events_of (AOpen path :: t ++ completion self env (S (length t))))
      with (events_of (t ++ completion self env (S (length t)))).
    change (write_sizes (AOpen path :: t ++ completion self env (S (length t))))
      with (write_sizes (t ++ completion self env (S (length t)))).
    rewrite events_of_app, progress_values_app, progress_values_completion, app_nil_r.
    rewrite write_sizes_app, write_sizes_completion, app_nil_r.
    intros Hi. destruct (loop_run_progress _ _ _ _ _ Hloop i p Hi) as (b & Hb & Hp).
    exists b. split; [exact Hb|]. split; [exact Hp|].
    pose proof (prefix_sums_lookup _ (write_sizes_nonneg t) _ _ _ Hb). lia.
Qed.



End Worker.



(** C2, at the failing input.  [worker1] receives a body of unknown length
    and is interrupted before its first step: the check before the bulk
    write finds the flag set, and the run ends with no event emitted and
    with the destination file in place, empty. *)
Theorem interrupted_bulk_write_is_silent :
  let w := DownloadThread.execute worker1 (served unknown_length (Some 0%nat)) ∅ in
  trace w = [AOpen "file.bin"; AFlag BulkWriteCheck true; AFlag CompletionCheck true] /\
  DownloadThread.emitted worker1 (served unknown_length (Some 0%nat)) ∅ = [] /\
  fs w !! "file.bin" = Some [].
Proof. vm_compute. auto. Qed.

(** C3, as stated, fails when [interrupt()] runs between a check and the
    write it guards, that is after the worker has opened its file and
    checked the flag: the first chunk of a body of known length is still
    written, and so is the whole of a body of unknown length, which is read
    from the network between the check and the write. *)
Lemma write_after_flag_set :
  ~ no_write_once_set worker1 (served two_chunks (Some 2%nat))
      (trace (DownloadThread.execute worker1 (served two_chunks (Some 2%nat)) ∅)) /\
  ~ no_write_once_set worker1 (served unknown_length (Some 2%nat))
      (trace (DownloadThread.execute worker1 (served unknown_length (Some 2%nat)) ∅)).
Proof.
  split; intros H.
  - specialize (H 2%nat "file.bin" (zeros 500)).
    assert (E : trace (DownloadThread.execute worker1 (served two_chunks (Some 2%nat)) ∅)
                  !! 2%nat
                = Some (AWrite "file.bin" (zeros 500))) by (vm_compute; reflexivity).
    specialize (H E). clear E. vm_compute in H. discriminate H.
  - specialize (H 2%nat "file.bin" (zeros 2000)).
    assert (E : trace (DownloadThread.execute worker1 (served unknown_length (Some 2%nat)) ∅)
                  !! 2%nat
                = Some (AWrite "file.bin" (zeros 2000))) by (vm_compute; reflexivity).
    specialize (H E). clear E. vm_compute in H. discriminate H.
Qed.

Lemma writes_follow_checks_witness :
  let env := served two_chunks (Some 2%nat) in
  let T := trace (DownloadThread.execute worker1 env ∅) in
  T !! 1%nat = Some (AFlag ChunkCheck false) /\
  T !! 2%nat = Some (AWrite "file.bin" (zeros 500)) /\
  T !! 4%nat = Some (AFlag ChunkCheck true) /\
  (2 < 4)%nat.
Proof.
  intros env T.
  destruct (writes_follow_checks worker1 env ∅) as (_ & _ & H3 & _).
  assert (E4 : T !! 4%nat = Some (AFlag ChunkCheck true)) by (vm_compute; reflexivity).
  assert (E2 : T !! 2%nat = Some (AWrite "file.bin" (zeros 500))) by (vm_compute; reflexivity).
  split; [vm_compute; reflexivity|]. split; [exact E2|]. split; [exact E4|].
  exact (H3 4%nat 2%nat ChunkCheck "file.bin" (zeros 500) E4 E2).
Defined.





(** * The scenarios of the specification *)

(** A body of 1000 bytes in two chunks of 500: progress 50, progress 100,
    completion, and a file of 1000 bytes. *)
Example scenario_two_chunks :
  let w := DownloadThread.execute worker1 (served two_chunks None) ∅ in
  events_of (trace w)
  = [progress_signal "id-1" 50; progress_signal "id-1" 100; finished_signal "id-1"] /\
  length <$> (fs w !! "file.bin") = Some 1000%nat.
Proof. vm_compute. auto. Qed.

(** Status 404: a single error event, no progress, no file. *)
Example scenario_not_found :
  let w := DownloadThread.execute worker1 (served not_found None) ∅ in
  events_of (trace w)
  = [error_signal "id-1" "404 Client Error: Not Found for url: http://example.test/file.bin"] /\
  fs w !! "file.bin" = None.
Proof. vm_compute. auto. Qed.

(** No [Content-Length], 2000 bytes: no progress, completion, and a file of
    2000 bytes. *)
Example scenario_unknown_length :
  let w := DownloadThread.execute worker1 (served unknown_length None) ∅ in
  events_of (trace w) = [finished_signal "id-1"] /\
  length <$> (fs w !! "file.bin") = Some 2000%nat.
Proof. vm_compute. auto. Qed.

(** A body of known length, interrupted before the first chunk is handled:
    the error event of the interruption, and no file. *)
Example scenario_interrupted_at_once :
  let w := DownloadThread.execute worker1 (served two_chunks (Some 0%nat)) ∅ in
  events_of (trace w) = [error_signal "id-1" "Download interrupted by user"] /\
  fs w !! "file.bin" = None.
Proof. vm_compute. auto. Qed.

(** * The percentage of a whole download *)

Section FullPercent.

Import Py.

(** [int((t / t) * 100)] is 100: the quotient is exactly [1.0]. *)
Lemma percent_same (t : Z) :
  0 < t < 2 ^ 53 -> DownloadThread.percent t t = Some 100.
Proof.
  intros Ht.
  destruct (float_of_int_exact t Ht) as (m & e & Hf & Hn & He & Hm).
  destruct (SFdiv_spec m m e e Hn Hn ltac:(lia) ltac:(lia))
    as (M1 & k1 & Hdiv & Hn1 & Hk1 & B1).
  unfold DownloadThread.percent, true_div. rewrite Hf, Hdiv.
  unfold normal53 in *.
  assert (Hx : - 2 ^ k1 <= 2 * (Zpos M1 * 2 ^ k1 - 2 ^ 53) <= 2 ^ k1).
  { replace (- (2 ^ k1 * Zpos m)) with ((- 2 ^ k1) * Zpos m) in B1 by ring.
    replace (2 * (Zpos M1 * 2 ^ k1 * Zpos m - Zpos m * 2 ^ 53))
      with ((2 * (Zpos M1 * 2 ^ k1 - 2 ^ 53)) * Zpos m) in B1 by ring.
    destruct B1 as [Ba Bb].
    apply Z.mul_le_mono_pos_r in Ba; [|lia].
    apply Z.mul_le_mono_pos_r in Bb; [|lia]. lia. }
  assert (Hk : k1 = 0 \/ k1 = 1 \/ k1 = 2) by lia.
  assert (HM : k1 = 1 /\ M1 = 4503599627370496%positive).
  { destruct Hk as [ -> | [ -> | -> ] ].
    - change (2 ^ 0) with 1 in Hx. lia.
    - change (2 ^ 1) with 2 in Hx. split; [reflexivity|]. lia.
    - change (2 ^ 2) with 4 in Hx. lia. }
  destruct HM as [-> ->].
  replace (e - e - 53 + 1) with (-52) by lia.
  reflexivity.
Qed.

(** X12.  The two ends of the scale are exact: no byte gives 0, and all the
    bytes of the declared total give 100. *)
Theorem percent_end_points (t : Z) :
  0 < t < 2 ^ 53 ->
  DownloadThread.percent 0 t = Some 0 /\ DownloadThread.percent t t = Some 100.
Proof. intros Ht. split; [apply percent_zero|apply percent_same]; exact Ht. Qed.

End FullPercent.

(** * Further properties of the worker *)

Section WorkerData.

Variable self : DownloadThread.t.
Variable env : environment.

Local Abbreviation path := (DownloadThread.save_path self).
Local Abbreviation ident := (DownloadThread.download_id self).
Local Abbreviation flag_at := (DownloadThread.flag_at self env).

Lemma content_payload (chunks : list chunk) (w w' : world) (data : bytes) :
  DownloadThread.content chunks w = (Ok data, w') ->
  data = concat (payload chunks) /\ intact chunks = true.
Proof.
  revert data w'. induction chunks as [|[d|m] chunks IH]; simpl; intros data w' H.
  - injection H as <- _. auto.
  - unfold bind in H.
    destruct (DownloadThread.content chunks w) as [[tl|e] w1] eqn:E; [|discriminate].
    injection H as <- _. destruct (IH tl w1 eq_refl) as [-> Hi]. auto.
  - discriminate.
Qed.

(** What the loop writes are the first chunks of the body, in order; a
    loop that ends normally has written them all. *)
Lemma iter_content_loop_writes (total_size : Z) (chunks : list chunk) :
  forall (k : nat) (downloaded : Z) (w : world) (r : result unit) (w' : world),
    DownloadThread.iter_content_loop self env total_size chunks k downloaded w = (r, w') ->
    exists t,
      trace w' = (trace w ++ t)%list /\
      (exists rest, payload chunks = (writes_of t ++ rest)%list) /\
      (r = Ok tt -> writes_of t = payload chunks /\ intact chunks = true).
Proof.
  induction chunks as [|[data|msg] chunks IH]; intros k downloaded w r w' H.
  - simpl in H. injection H as <- <-. exists []. rewrite app_nil_r.
    split; [reflexivity|]. split; [exists []; reflexivity|]. auto.
  - cbn [DownloadThread.iter_content_loop] in H.
    unfold bind at 1 in H. unfold DownloadThread.read_flag at 1 in H.
    destruct (flag_at (length (trace w))) eqn:Hflag.
    + injection H as <- <-. exists [AFlag ChunkCheck true].
      split; [reflexivity|]. split; [eexists; reflexivity|]. discriminate.
    + unfold bind at 1 in H.
      match type of H with context [DownloadThread.f_write env path k data ?w1] =>
        destruct (DownloadThread.f_write env path k data w1) as [[[]|e] w2] eqn:Hw;
        destruct (f_write_cases self env k data w1) as [[m Hm]|Hm]; rewrite Hm in Hw;
        try discriminate end.
      * injection Hw as <-. cbn [fs trace] in H.
        destruct (DownloadThread.percent (downloaded + Z.of_nat (length data)) total_size)
          as [progress|].
        -- unfold bind at 1 in H. unfold DownloadThread.emit at 1 in H. unfold step at 1 in H.
           cbn [fs trace] in H.
           destruct (IH _ _ _ _ _ H) as (t & Ht & [rest Hrest] & Hok). cbn [trace] in Ht.
           exists (AFlag ChunkCheck false :: AWrite path data ::
                   AEmit (progress_signal ident progress) :: t).
           split; [rewrite Ht, <- !app_assoc; reflexivity|].
           split.
           ++ exists rest. simpl. rewrite Hrest. reflexivity.
           ++ intros Hr. destruct (Hok Hr) as [Hw' Hi]. split; [|exact Hi].
              change (writes_of (AFlag ChunkCheck false :: AWrite path data ::
                                 AEmit (progress_signal ident progress) :: t))
                with (data :: writes_of t).
              rewrite Hw'. reflexivity.
        -- injection H as <- <-. exists [AFlag ChunkCheck false; AWrite path data].
           split; [cbn [trace]; rewrite <- app_assoc; reflexivity|].
           split; [exists (payload chunks); reflexivity|]. discriminate.
      * injection Hw as <- <-. injection H as <- <-.
        exists [AFlag ChunkCheck false].
        split; [reflexivity|]. split; [eexists; reflexivity|]. discriminate.
  - simpl in H. injection H as <- <-. exists []. rewrite app_nil_r.
    split; [reflexivity|]. split; [exists []; reflexivity|]. discriminate.
Qed.

Lemma loop_trace_events (total_size : Z) (chunks : list chunk) (k : nat) (downloaded : Z)
    (fs1 : gmap string bytes) (t0 : list action) (r : result unit) (w' : world) (c : bytes) :
  fs1 !! path = Some c ->
  DownloadThread.iter_content_loop self env total_size chunks k downloaded (World fs1 t0)
  = (r, w') ->
  exists t, trace w' = (t0 ++ t)%list /\
            loop_run self env total_size (length t0) downloaded t r.
Proof.
  intros Hc H.
  destruct (iter_content_loop_sound self env total_size chunks k downloaded
              (World fs1 t0) c Hc) as (t & r1 & Hrun & Hloop & _).
  rewrite Hrun in H. injection H as <- <-. exists t. auto.
Qed.

Lemma writes_of_cons (a : action) (t : list action) :
  writes_of (a :: t)
  = (match a with AWrite _ d => [d] | _ => [] end ++ writes_of t)%list.
Proof. reflexivity. Qed.

Lemma finished_not_in_progress (ps : list Z) :
  ~ In (finished_signal ident) (map (progress_signal ident) ps).
Proof. induction ps; simpl; intuition discriminate. Qed.

(** What the body has written once the file is open. *)
Lemma after_open_writes (resp : response) (total_size : Z) (fs1 : gmap string bytes)
    (r : result unit) (w' : world) :
  fs1 !! path = Some [] ->
  ((if total_size =? 0 then
      b <- DownloadThread.read_flag self env BulkWriteCheck ;;
      if negb b then
        data <- DownloadThread.content (body resp) ;;
        DownloadThread.f_write env path 0 data
      else ret tt
    else
      DownloadThread.iter_content_loop self env total_size (body resp) 0 0) ;;;
   b <- DownloadThread.read_flag self env CompletionCheck ;;
   if negb b then DownloadThread.emit (finished_signal ident) else ret tt)
    (World fs1 [AOpen path])
  = (r, w') ->
  (exists rest, concat (payload (body resp))
                = (concat (writes_of (trace w')) ++ rest)%list) /\
  (In (finished_signal ident) (events_of (trace w')) ->
   concat (writes_of (trace w')) = concat (payload (body resp)) /\
   intact (body resp) = true).
Proof.
  intros Hfs H. unfold bind at 1 in H.
  destruct (total_size =? 0).
  - (* the bulk path *)
    unfold bind at 1 in H. unfold DownloadThread.read_flag at 1 in H. cbn [fs trace length] in H.
    destruct (flag_at 1) eqn:Hflag; cbn [negb] in H.
    + unfold ret at 1 in H. rewrite completion_run in H. injection H as <- <-.
      cbn [trace fs length app].
      assert (Hc : completion self env 2 = [AFlag CompletionCheck true]).
      { unfold completion. rewrite (flag_at_mono self env 1 2) by (auto; lia). reflexivity. }
      rewrite Hc. split; [eexists; reflexivity|]. simpl. tauto.
    + unfold bind at 1 in H.
      match type of H with context [DownloadThread.content ?b ?w1] =>
        destruct (DownloadThread.content b w1) as [[data|e] w2] eqn:Hd end.
      * destruct (content_cases (body resp)
                    (World fs1 ([AOpen path] ++ [AFlag BulkWriteCheck false])))
          as [[d' Hd']|[m Hd']]; rewrite Hd' in Hd; [|discriminate].
        injection Hd as -> <-.
        destruct (content_payload _ _ _ _ Hd') as [Hdata Hint].
        match type of H with context [DownloadThread.f_write env path 0 data ?w1] =>
          destruct (f_write_cases self env 0 data w1) as [[m Hw]|Hw]; rewrite Hw in H end.
        -- injection H as <- <-. simpl. split; [eexists; reflexivity|]. tauto.
        -- rewrite completion_run in H. injection H as <- <-. cbn [trace fs length app].
           rewrite !writes_of_cons, (writes_of_completion self env). cbn [app].
           simpl concat. rewrite !app_nil_r.
           split; [exists []; rewrite app_nil_r; auto|]. auto.
      * injection H as <- <-.
        destruct (content_cases (body resp)
                    (World fs1 ([AOpen path] ++ [AFlag BulkWriteCheck false])))
          as [[d' Hd']|[m Hd']]; rewrite Hd' in Hd; [discriminate|].
        injection Hd as <- <-. simpl. split; [eexists; reflexivity|]. tauto.
  - (* the loop *)
    destruct (DownloadThread.iter_content_loop self env total_size (body resp) 0 0
                (World fs1 [AOpen path])) as [r0 w2] eqn:Hloop.
    destruct (iter_content_loop_writes total_size _ _ _ _ _ _ Hloop)
      as (t & Ht & Hprefix & Hok).
    destruct (loop_trace_events _ _ _ _ _ _ _ _ _ Hfs Hloop) as (t1 & Ht1 & Hrun).
    assert (t1 = t) by (rewrite Ht in Ht1; apply app_inv_head in Ht1; auto). subst t1.
    destruct (loop_run_events self env _ _ _ _ _ Hrun) as [ps Hps].
    cbn [trace] in Ht.
    destruct r0 as [[]|e].
    + rewrite completion_run in H. injection H as <- <-. cbn [trace].
      rewrite Ht, !writes_of_app, (writes_of_completion self env), app_nil_r.
      change (writes_of [AOpen path]) with (@nil bytes). cbn [app].
      destruct (Hok eq_refl) as [Hw Hint]. rewrite Hw.
      split; [exists []; rewrite app_nil_r; reflexivity|]. auto.
    + injection H as <- <-. rewrite Ht, writes_of_app, events_of_app.
      change (writes_of [AOpen path]) with (@nil bytes).
      change (events_of [AOpen path]) with (@nil event). cbn [app].
      split.
      * destruct Hprefix as [rest Hrest]. rewrite Hrest, concat_app. eexists. reflexivity.
      * rewrite Hps. intros Hin. exfalso. eapply finished_not_in_progress; eauto.
Qed.

Lemma events_of_cons (a : action) (t : list action) :
  events_of (a :: t)
  = (match a with AEmit e => [e] | _ => [] end ++ events_of t)%list.
Proof. reflexivity. Qed.

(** The bulk path emits no progress event. *)
Lemma bulk_events (resp : response) (fs1 : gmap string bytes)
    (r : result unit) (w' : world) :
  ((b <- DownloadThread.read_flag self env BulkWriteCheck ;;
    if negb b then
      data <- DownloadThread.content (body resp) ;;
      DownloadThread.f_write env path 0 data
    else ret tt) ;;;
   b <- DownloadThread.read_flag self env CompletionCheck ;;
   if negb b then DownloadThread.emit (finished_signal ident) else ret tt)
    (World fs1 [AOpen path])
  = (r, w') ->
  progress_values (events_of (trace w')) = [].
Proof.
  intros H. unfold bind at 1 in H.
  unfold bind at 1 in H. unfold DownloadThread.read_flag at 1 in H. cbn [fs trace length] in H.
  destruct (flag_at 1); cbn [negb] in H.
  - unfold ret at 1 in H. rewrite completion_run in H. injection H as <- <-.
    cbn [trace app]. rewrite !events_of_cons. cbn [app].
    apply progress_values_completion.
  - unfold bind at 1 in H.
    match type of H with context [DownloadThread.content ?b ?w1] =>
      destruct (content_cases b w1) as [[data Hd]|[m Hd]]; rewrite Hd in H end.
    + match type of H with context [DownloadThread.f_write env path 0 data ?w1] =>
        destruct (f_write_cases self env 0 data w1) as [[m Hw]|Hw]; rewrite Hw in H end.
      * injection H as <- <-. reflexivity.
      * rewrite completion_run in H. injection H as <- <-.
        cbn [trace app]. rewrite !events_of_cons. cbn [app].
        apply progress_values_completion.
    + injection H as <- <-. reflexivity.
Qed.

(** The body of the [try] statement and the bytes of the response. *)
Lemma try_body_data (fs0 : gmap string bytes) (resp : response)
    (r : result unit) (w' : world) :
  get_result env = inr resp ->
  DownloadThread.try_body self env (World fs0 []) = (r, w') ->
  (exists rest, concat (payload (body resp))
                = (concat (writes_of (trace w')) ++ rest)%list) /\
  (In (finished_signal ident) (events_of (trace w')) ->
   concat (writes_of (trace w')) = concat (payload (body resp)) /\
   intact (body resp) = true) /\
  (content_length resp = HeaderAbsent \/ content_length resp = HeaderInt 0 ->
   progress_values (events_of (trace w')) = []).
Proof.
  intros Hget H.
  assert (Hnone : forall e,
            (Raise e, World fs0 []) = (r, w') ->
            (exists rest, concat (payload (body resp))
                          = (concat (writes_of (trace w')) ++ rest)%list) /\
            (In (finished_signal ident) (events_of (trace w')) ->
             concat (writes_of (trace w')) = concat (payload (body resp)) /\
             intact (body resp) = true) /\
            (content_length resp = HeaderAbsent \/ content_length resp = HeaderInt 0 ->
             progress_values (events_of (trace w')) = [])).
  { intros e He. injection He as <- <-. simpl.
    split; [eexists; reflexivity|]. split; [tauto|reflexivity]. }
  unfold DownloadThread.try_body in H.
  unfold bind at 1 in H. unfold DownloadThread.requests_get in H. rewrite Hget in H.
  unfold ret at 1 in H. unfold bind at 1 in H. unfold DownloadThread.raise_for_status in H.
  destruct (status_error resp) as [msg|]; [exact (Hnone _ H)|].
  unfold ret at 1 in H. unfold bind at 1 in H. unfold DownloadThread.total_size_of in H.
  destruct (content_length resp) as [|n|raw] eqn:Hlen; [| |exact (Hnone _ H)].
  - unfold ret at 1 in H. unfold bind at 1 in H. unfold DownloadThread.open_wb in H.
    destruct (open_error env) as [msg|]; [exact (Hnone _ H)|].
    unfold step at 1 in H. cbn [fs trace app] in H.
    destruct (after_open_writes resp 0 (<[path := []]> fs0) r w'
                ltac:(apply lookup_insert_eq) H) as [H1 H2].
    split; [exact H1|]. split; [exact H2|]. intros _.
    exact (bulk_events resp _ r w' H).
  - unfold ret at 1 in H. unfold bind at 1 in H. unfold DownloadThread.open_wb in H.
    destruct (open_error env) as [msg|]; [exact (Hnone _ H)|].
    unfold step at 1 in H. cbn [fs trace app] in H.
    destruct (after_open_writes resp n (<[path := []]> fs0) r w'
                ltac:(apply lookup_insert_eq) H) as [H1 H2].
    split; [exact H1|]. split; [exact H2|]. intros [Habs|Hzero]; [discriminate|].
    injection Hzero as ->.
    exact (bulk_events resp _ r w' H).
Qed.

Lemma body_run_finished (t : list action) (r : result unit) :
  body_run self env t r -> In (finished_signal ident) (events_of t) ->
  r = Ok tt /\ opened t = true.
Proof.
  intros Hrun Hin.
  destruct Hrun as [msg|Hf|msg Hf|data Hf|resp total t e Hget Hlen Hsize Hloop
                    |resp total t Hget Hlen Hsize Hloop].
  - contradiction.
  - split; reflexivity.
  - simpl in Hin. contradiction.
  - split; reflexivity.
  - exfalso. change (events_of (AOpen path :: t)) with (events_of t) in Hin.
    destruct (loop_run_events self env _ _ _ _ _ Hloop) as [ps Hps]. rewrite Hps in Hin.
    eapply finished_not_in_progress; eauto.
  - split; reflexivity.
Qed.

Lemma handler_no_finished (r : result unit) :
  ~ In (finished_signal ident) (events_of (handler_steps self r)).
Proof. destruct r as [[]|[m|m]]; simpl; intuition discriminate. Qed.

Lemma handler_not_opened (r : result unit) : opened (handler_steps self r) = false.
Proof. destruct r as [[]|[m|m]]; reflexivity. Qed.

(** X1.  A run that reports completion has stored the whole body: the
    destination holds the chunks of the response, joined in order, and the
    stream did not fail. *)
Theorem finished_file_holds_body (fs0 : gmap string bytes) (resp : response) :
  get_result env = inr resp ->
  In (finished_signal ident) (DownloadThread.emitted self env fs0) ->
  fs (DownloadThread.execute self env fs0) !! path = Some (concat (payload (body resp))) /\
  intact (body resp) = true.
Proof.
  intros Hget. unfold DownloadThread.emitted.
  destruct (run_sound self env fs0) as (t & r & Hbody & Hrun & ->). cbn [trace fs].
  rewrite events_of_app. intros Hin. apply in_app_or in Hin.
  destruct Hin as [Hin|Hin]; [|exfalso; eapply handler_no_finished; eauto].
  destruct (body_run_finished t r Hrun Hin) as [-> Hopen].
  destruct (try_body_data fs0 resp _ _ Hget Hbody) as (_ & Hfin & _). cbn [trace] in Hfin.
  destruct (Hfin Hin) as [Hw Hint]. split; [|exact Hint].
  unfold final_fs, body_fs. rewrite Hopen, lookup_insert_eq, Hw. reflexivity.
Qed.

(** X2.  Whatever ends the run, a destination that was opened and is still
    there holds a prefix of the body: nothing else is ever written to it. *)
Theorem file_is_prefix_of_body (fs0 : gmap string bytes) (resp : response) (c : bytes) :
  get_result env = inr resp ->
  opened (trace (DownloadThread.execute self env fs0)) = true ->
  fs (DownloadThread.execute self env fs0) !! path = Some c ->
  exists rest, concat (payload (body resp)) = (c ++ rest)%list.
Proof.
  intros Hget.
  destruct (run_sound self env fs0) as (t & r & Hbody & Hrun & ->). cbn [trace fs].
  rewrite opened_app, handler_not_opened, orb_false_r. intros Hopen Hc.
  destruct (try_body_data fs0 resp _ _ Hget Hbody) as (Hpre & _ & _). cbn [trace] in Hpre.
  assert (Hfile : body_fs self fs0 t !! path = Some (concat (writes_of t))).
  { unfold body_fs. rewrite Hopen. apply lookup_insert_eq. }
  destruct r as [[]|[m|m]]; cbn [final_fs] in Hc.
  - rewrite Hfile in Hc. injection Hc as <-. exact Hpre.
  - rewrite lookup_delete_eq in Hc. discriminate.
  - rewrite Hfile in Hc. injection Hc as <-. exact Hpre.
Qed.


(** X4.  A run that did not open its destination has changed no file and has
    emitted one error event, and nothing else. *)
Theorem unopened_run_reports_one_error (fs0 : gmap string bytes) :
  opened (trace (DownloadThread.execute self env fs0)) = false ->
  fs (DownloadThread.execute self env fs0) = fs0 /\
  exists msg, trace (DownloadThread.execute self env fs0)
              = [AEmit (error_signal ident msg)].
Proof.
  destruct (run_sound self env fs0) as (t & r & _ & Hrun & ->). cbn [trace fs].
  rewrite opened_app, handler_not_opened, orb_false_r. intros Hopen.
  destruct Hrun as [msg|Hf|msg Hf|data Hf|resp total t e Hget Hlen Hsize Hloop
                    |resp total t Hget Hlen Hsize Hloop]; try discriminate Hopen.
  split; [reflexivity|]. exists msg. reflexivity.
Qed.

(** X5.  A fault before the file is opened, that is a failed request, an error
    status, a [Content-Length] that [int] rejects or a file that cannot be
    opened, leaves the file system as it was: no file is created, and the
    run emits one error event, and nothing else. *)
Theorem fault_before_open_creates_no_file (fs0 : gmap string bytes) :
  (exists msg, get_result env = inl msg) \/
  (exists resp, get_result env = inr resp /\
                (status_error resp <> None \/
                 exists raw, content_length resp = HeaderInvalid raw)) \/
  open_error env <> None ->
  fs (DownloadThread.execute self env fs0) = fs0 /\
  exists msg, trace (DownloadThread.execute self env fs0)
              = [AEmit (error_signal ident msg)].
Proof.
  intros H.
  assert (Hb : exists msg, DownloadThread.try_body self env (World fs0 [])
                           = (Raise (Exception msg), World fs0 [])).
  { unfold DownloadThread.try_body.
    unfold bind at 1. unfold DownloadThread.requests_get.
    destruct (get_result env) as [msg|resp] eqn:Hget.
    { exists msg. reflexivity. }
    unfold ret at 1. unfold bind at 1. unfold DownloadThread.raise_for_status.
    destruct (status_error resp) as [msg|] eqn:Hstatus.
    { exists msg. reflexivity. }
    unfold ret at 1. unfold bind at 1. unfold DownloadThread.total_size_of.
    destruct (content_length resp) as [|n|raw] eqn:Hlen.
    3: { eexists. reflexivity. }
    all: unfold ret at 1; unfold bind at 1; unfold DownloadThread.open_wb;
      destruct (open_error env) as [msg|] eqn:Hopen; [exists msg; reflexivity|].
    all: exfalso; destruct H as [[msg H]|[(resp' & H & [H'|[raw H']])|H]];
      try discriminate; try congruence. }
  destruct Hb as [msg Hb].
  unfold DownloadThread.execute, DownloadThread.run. rewrite Hb. cbn.
  split; [reflexivity|]. exists msg. reflexivity.
Qed.

Lemma sum_app (l1 l2 : list Z) :
  fold_right Z.add 0 (l1 ++ l2) = fold_right Z.add 0 l1 + fold_right Z.add 0 l2.
Proof. induction l1 as [|x l1 IH]; simpl; lia. Qed.

Lemma sum_sizes_nonneg (l : list bytes) :
  0 <= fold_right Z.add 0 (map (fun d => Z.of_nat (length d)) l).
Proof. induction l as [|d l IH]; simpl; lia. Qed.

Lemma payload_size (chunks : list chunk) :
  fold_right Z.add 0 (map (fun d => Z.of_nat (length d)) (payload chunks))
  <= body_size chunks /\
  (intact chunks = true ->
   fold_right Z.add 0 (map (fun d => Z.of_nat (length d)) (payload chunks))
   = body_size chunks).
Proof.
  induction chunks as [|[d|m] chunks [IH1 IH2]].
  - simpl. split; [lia|reflexivity].
  - change (payload (Data d :: chunks)) with (d :: payload chunks).
    change (body_size (Data d :: chunks)) with (Z.of_nat (length d) + body_size chunks).
    change (intact (Data d :: chunks)) with (intact chunks).
    cbn [map fold_right]. split; [lia|]. intros Hi. rewrite (IH2 Hi). reflexivity.
  - change (payload (StreamError m :: chunks)) with (@nil bytes).
    change (body_size (StreamError m :: chunks)) with (body_size chunks).
    split; [apply body_size_nonneg|discriminate].
Qed.

(** The steps of the body when the declared total is not zero: the loop. *)
Lemma try_body_loop_path (fs0 : gmap string bytes) (resp : response) (total : Z)
    (r : result unit) (w' : world) :
  get_result env = inr resp -> content_length resp = HeaderInt total -> total <> 0 ->
  DownloadThread.try_body self env (World fs0 []) = (r, w') ->
  trace w' = [] \/
  exists t r0,
    loop_run self env total 1 0 t r0 /\
    fold_right Z.add 0 (write_sizes t) <= body_size (body resp) /\
    (r0 = Ok tt -> fold_right Z.add 0 (write_sizes t) = body_size (body resp)) /\
    trace w' = (AOpen path :: t ++
                match r0 with
                | Ok _ => completion self env (S (length t))
                | Raise _ => []
                end)%list.
Proof.
  intros Hget Hlen Hne H.
  unfold DownloadThread.try_body in H.
  unfold bind at 1 in H. unfold DownloadThread.requests_get in H. rewrite Hget in H.
  unfold ret at 1 in H. unfold bind at 1 in H. unfold DownloadThread.raise_for_status in H.
  destruct (status_error resp) as [msg|]; [injection H as <- <-; left; reflexivity|].
  unfold ret at 1 in H. unfold bind at 1 in H. unfold DownloadThread.total_size_of in H.
  rewrite Hlen in H.
  unfold ret at 1 in H. unfold bind at 1 in H. unfold DownloadThread.open_wb in H.
  destruct (open_error env) as [msg|]; [injection H as <- <-; left; reflexivity|].
  unfold step at 1 in H. cbn [fs trace app] in H.
  destruct (Z.eqb_spec total 0) as [|_]; [contradiction|].
  unfold bind at 1 in H.
  destruct (DownloadThread.iter_content_loop self env total (body resp) 0 0
              (World (<[path := []]> fs0) [AOpen path])) as [r0 w2] eqn:Hloop.
  destruct (iter_content_loop_writes total _ _ _ _ _ _ Hloop) as (t & Ht & Hprefix & Hok).
  destruct (loop_trace_events _ _ _ _ _ _ _ _ _ (lookup_insert_eq _ _ _) Hloop)
    as (t1 & Ht1 & Hrun).
  assert (t1 = t) by (rewrite Ht in Ht1; apply app_inv_head in Ht1; auto). subst t1.
  cbn [trace] in Ht. destruct (payload_size (body resp)) as [Hle Heq].
  right. exists t, r0. split; [exact Hrun|]. split; [|split].
  - destruct Hprefix as [rest Hrest]. rewrite Hrest, map_app, sum_app in Hle.
    pose proof (sum_sizes_nonneg rest). unfold write_sizes. lia.
  - intros Hr. destruct (Hok Hr) as [Hw Hi]. unfold write_sizes. rewrite Hw. auto.
  - destruct r0 as [[]|e].
    + rewrite completion_run in H. injection H as <- <-. cbn [trace].
      rewrite Ht. rewrite <- app_assoc. reflexivity.
    + injection H as <- <-. rewrite Ht, app_nil_r. reflexivity.
Qed.

Lemma loop_run_count (total_size : Z) (n : nat) (downloaded : Z)
    (t : list action) (r : result unit) :
  loop_run self env total_size n downloaded t r ->
  0 < total_size < 2 ^ 53 -> 0 <= downloaded ->
  downloaded + fold_right Z.add 0 (write_sizes t) < 2 ^ 53 ->
  length (progress_values (events_of t)) = length (writes_of t).
Proof.
  intros Hrun Ht. induction Hrun as [| | | |n dl data msg Hf Hp|n dl data p rest r Hf Hp Hrun IH];
    intros Hd Hs; try reflexivity.
  - exfalso. change (write_sizes [AFlag ChunkCheck false; AWrite path data])
      with [Z.of_nat (length data)] in Hs. cbn [fold_right] in Hs.
    destruct (percent_total (dl + Z.of_nat (length data)) total_size ltac:(lia) Ht)
      as (P & HP & _).
    rewrite HP in Hp. discriminate.
  - change (write_sizes (AFlag ChunkCheck false :: AWrite path data ::
                         AEmit (progress_signal ident p) :: rest))
      with (Z.of_nat (length data) :: write_sizes rest) in Hs. cbn [fold_right] in Hs.
    pose proof (sum_sizes_nonneg (writes_of rest)) as Hnn. fold (write_sizes rest) in Hnn.
    cbn. f_equal. apply IH; lia.
Qed.

Lemma prefix_sums_last (l : list Z) :
  forall (acc : Z) (i : nat) b,
    prefix_sums acc l !! i = Some b -> S i = length l ->
    b = acc + fold_right Z.add 0 l.
Proof.
  induction l as [|x l IH]; intros acc i b Hi Hn; [discriminate|].
  destruct i as [|i].
  - destruct l; [|discriminate]. simpl in Hi. injection Hi as <-. simpl. lia.
  - simpl in Hi. apply IH in Hi; [|simpl in Hn; lia]. simpl. lia.
Qed.

Lemma progress_values_cons_open (t : list action) :
  progress_values (events_of (AOpen path :: t)) = progress_values (events_of t).
Proof. reflexivity. Qed.

(** The progress events and the writes of a run whose total was declared
    and is not zero are those of its loop. *)
Lemma execute_loop (fs0 : gmap string bytes) (resp : response) (total : Z) :
  get_result env = inr resp -> content_length resp = HeaderInt total -> total <> 0 ->
  exists t r0,
    loop_run self env total 1 0 t r0 /\
    fold_right Z.add 0 (write_sizes t) <= body_size (body resp) /\
    (In (finished_signal ident) (DownloadThread.emitted self env fs0) ->
     r0 = Ok tt /\ fold_right Z.add 0 (write_sizes t) = body_size (body resp)) /\
    progress_values (DownloadThread.emitted self env fs0) = progress_values (events_of t) /\
    writes_of (trace (DownloadThread.execute self env fs0)) = writes_of t.
Proof.
  intros Hget Hlen Hne. unfold DownloadThread.emitted.
  destruct (run_sound self env fs0) as (t & r & Hbody & Hrun & ->). cbn [trace].
  destruct (try_body_loop_path fs0 resp total _ _ Hget Hlen Hne Hbody)
    as [Hnil|(t' & r0 & Hloop & Hle & Heq & Ht)]; cbn [trace] in *.
  - subst t. exists [], (Raise (Exception "")).
    split; [constructor|]. split; [apply body_size_nonneg|].
    rewrite events_of_app, progress_values_app, progress_values_handler.
    rewrite writes_of_app.
    assert (Hw : writes_of (handler_steps self r) = []) by (destruct r as [[]|[m|m]]; reflexivity).
    rewrite Hw. split; [|split; reflexivity].
    cbn [events_of flat_map app]. intros Hin. exfalso. eapply handler_no_finished; eauto.
  - exists t', r0. split; [exact Hloop|]. split; [exact Hle|].
    rewrite events_of_app, progress_values_app, progress_values_handler, app_nil_r.
    rewrite writes_of_app.
    assert (Hw : writes_of (handler_steps self r) = []) by (destruct r as [[]|[m|m]]; reflexivity).
    rewrite Hw, app_nil_r. subst t.
    rewrite progress_values_cons_open, events_of_app, progress_values_app.
    change (writes_of (AOpen path :: ?x)) with (writes_of x).
    rewrite writes_of_app.
    split; [|split].
    + intros Hin. apply in_app_or in Hin.
      destruct Hin as [Hin|Hin]; [|exfalso; eapply handler_no_finished; eauto].
      change (events_of (AOpen path :: ?x)) with (events_of x) in Hin.
      rewrite events_of_app in Hin.
      destruct (loop_run_events self env _ _ _ _ _ Hloop) as [ps Hps]. rewrite Hps in Hin.
      apply in_app_or in Hin. destruct Hin as [Hin|Hin].
      * exfalso. eapply finished_not_in_progress; eauto.
      * destruct r0 as [[]|e]; [auto|contradiction].
    + destruct r0 as [[]|e].
      * rewrite progress_values_completion, app_nil_r. reflexivity.
      * rewrite app_nil_r. reflexivity.
    + destruct r0 as [[]|e].
      * rewrite (writes_of_completion self env), app_nil_r. reflexivity.
      * rewrite app_nil_r. reflexivity.
Qed.

(** X9.  When the declared total is positive and total and body stay below
    2^53 bytes, every chunk written is reported: the run emits as many
    progress events as it performs writes. *)
Theorem every_write_is_reported (fs0 : gmap string bytes) (resp : response) (total : Z) :
  get_result env = inr resp -> content_length resp = HeaderInt total ->
  0 < total < 2 ^ 53 -> body_size (body resp) < 2 ^ 53 ->
  length (progress_values (DownloadThread.emitted self env fs0))
  = length (writes_of (trace (DownloadThread.execute self env fs0))).
Proof.
  intros Hget Hlen Htotal Hsize.
  destruct (execute_loop fs0 resp total Hget Hlen ltac:(lia))
    as (t & r0 & Hloop & Hle & _ & -> & ->).
  apply (loop_run_count _ _ _ _ _ Hloop Htotal); lia.
Qed.

(** X10.  A completed download whose body has the declared size ends its
    progress events with 100. *)
Theorem complete_download_ends_at_100 (fs0 : gmap string bytes) (resp : response)
    (total : Z) :
  get_result env = inr resp -> content_length resp = HeaderInt total ->
  0 < total < 2 ^ 53 -> body_size (body resp) = total ->
  In (finished_signal ident) (DownloadThread.emitted self env fs0) ->
  last (progress_values (DownloadThread.emitted self env fs0)) = Some 100.
Proof.
  intros Hget Hlen Htotal Hsize Hfin.
  destruct (execute_loop fs0 resp total Hget Hlen ltac:(lia))
    as (t & r0 & Hloop & Hle & Hok & -> & _).
  destruct (Hok Hfin) as [-> Hsum].
  pose proof (loop_run_count _ _ _ _ _ Hloop Htotal ltac:(lia) ltac:(lia)) as Hcount.
  assert (Hpos : (0 < length (writes_of t))%nat).
  { destruct (writes_of t) eqn:E; [|simpl; lia].
    unfold write_sizes in Hsum. rewrite E in Hsum. simpl in Hsum. lia. }
  rewrite last_lookup.
  destruct (lookup_lt_is_Some_2 (progress_values (events_of t))
              (pred (length (progress_values (events_of t)))) ltac:(lia)) as [p Hp].
  rewrite Hp. f_equal.
  destruct (loop_run_progress self env _ _ _ _ _ Hloop _ _ Hp) as (b & Hb & Hpb).
  apply prefix_sums_last in Hb.
  - rewrite Z.add_0_l, Hsum, Hsize in Hb. subst b.
    rewrite (percent_same total Htotal) in Hpb. injection Hpb as <-. reflexivity.
  - unfold write_sizes. rewrite length_map. lia.
Qed.

(** X11.  When the body is no larger than the declared total, which is positive
    and below 2^50, every progress event carries a value from 0 to 100, the
    range of the progress bar. *)
Theorem progress_within_bar_range (fs0 : gmap string bytes) (resp : response)
    (total : Z) (i : nat) (p : Z) :
  get_result env = inr resp -> content_length resp = HeaderInt total ->
  0 < total < 2 ^ 50 -> body_size (body resp) <= total ->
  progress_values (DownloadThread.emitted self env fs0) !! i = Some p ->
  0 <= p <= 100.
Proof.
  intros Hget Hlen Htotal Hsize Hi.
  assert (H53 : 2 ^ 50 <= 2 ^ 53) by (apply Z.pow_le_mono_r; lia).
  destruct (execute_progress self env fs0 resp total Hget Hlen i p Hi) as (b & _ & Hp & Hb).
  destruct (percent_total b total ltac:(lia) ltac:(lia)) as (P & HP & HP0).
  rewrite Hp in HP. injection HP as <-. split; [exact HP0|].
  apply (percent_mono b total total p 100); try lia; try assumption.
  apply percent_same. lia.
Qed.

Lemma loop_run_flag_set (total_size : Z) (n : nat) (downloaded : Z)
    (t : list action) (r : result unit) :
  loop_run self env total_size n downloaded t r -> flag_at n = true ->
  writes_of t = [] /\ (r = Ok tt -> t = []).
Proof.
  destruct 1; intros Hf; try congruence; split; try reflexivity; try discriminate.
Qed.

(** X7.  A worker whose flag is set before its first step, [interrupt()] having
    been called before [start()] took effect, writes nothing and never
    reports completion. *)
Theorem interrupted_before_start_writes_nothing (fs0 : gmap string bytes) :
  flag_at 0 = true ->
  writes_of (trace (DownloadThread.execute self env fs0)) = [] /\
  ~ In (finished_signal ident) (DownloadThread.emitted self env fs0).
Proof.
  intros Hf. unfold DownloadThread.emitted.
  destruct (run_sound self env fs0) as (t & r & _ & Hrun & ->). cbn [trace].
  assert (Hw : writes_of (handler_steps self r) = []) by (destruct r as [[]|[m|m]]; reflexivity).
  rewrite writes_of_app, Hw, app_nil_r, events_of_app.
  assert (Hall : forall n, flag_at n = true).
  { intros n. apply (flag_at_mono self env 0 n); [lia|exact Hf]. }
  assert (Hc : forall n, completion self env n = [AFlag CompletionCheck true]).
  { intros n. unfold completion. rewrite Hall. reflexivity. }
  assert (Hnf : forall evs r',
            ~ In (finished_signal ident) evs ->
            ~ In (finished_signal ident) (evs ++ events_of (handler_steps self r'))).
  { intros evs r' H Hin. apply in_app_or in Hin. destruct Hin as [Hin|Hin]; [auto|].
    eapply handler_no_finished; eauto. }
  destruct Hrun as [msg|Hf1|msg Hf1|data Hf1|resp total t e Hget Hlen Hsize Hloop
                    |resp total t Hget Hlen Hsize Hloop];
    try (rewrite Hall in Hf1; discriminate).
  - split; [reflexivity|]. apply Hnf. simpl. tauto.
  - rewrite Hc. split; [reflexivity|]. apply Hnf. simpl. tauto.
  - destruct (loop_run_flag_set _ _ _ _ _ Hloop (Hall _)) as [Hwt _].
    split; [exact Hwt|]. apply Hnf.
    change (events_of (AOpen path :: t)) with (events_of t).
    destruct (loop_run_events self env _ _ _ _ _ Hloop) as [ps ->].
    apply finished_not_in_progress.
  - destruct (loop_run_flag_set _ _ _ _ _ Hloop (Hall _)) as [Hwt Hnil].
    rewrite (Hnil eq_refl), Hc. split; [reflexivity|]. apply Hnf. simpl. tauto.
Qed.

(** X8.  When the total is unknown, the header being absent or zero, the run
    emits no progress event. *)
Theorem unknown_total_emits_no_progress (fs0 : gmap string bytes) (resp : response) :
  get_result env = inr resp ->
  content_length resp = HeaderAbsent \/ content_length resp = HeaderInt 0 ->
  progress_values (DownloadThread.emitted self env fs0) = [].
Proof.
  intros Hget Hlen. unfold DownloadThread.emitted.
  destruct (run_sound self env fs0) as (t & r & Hbody & _ & ->). cbn [trace].
  rewrite events_of_app, progress_values_app, progress_values_handler, app_nil_r.
  destruct (try_body_data fs0 resp _ _ Hget Hbody) as (_ & _ & Hbulk).
  exact (Hbulk Hlen).
Qed.

(** The events of a run: progress events, then at most one event that
    ends it. *)
Lemma emitted_shape (fs0 : gmap string bytes) :
  exists ps tl,
    DownloadThread.emitted self env fs0 = (map (progress_signal ident) ps ++ tl)%list /\
    (tl = [] \/ tl = [finished_signal ident] \/ exists msg, tl = [error_signal ident msg]).
Proof.
  unfold DownloadThread.emitted.
  destruct (run_sound self env fs0) as (t & r & _ & Hrun & ->). cbn [trace].
  rewrite events_of_app.
  assert (Hcomp : forall n, events_of (completion self env n) = [] \/
                            events_of (completion self env n) = [finished_signal ident]).
  { intros n. rewrite events_of_completion. destruct (flag_at n); auto. }
  destruct Hrun as [msg|Hf|msg Hf|data Hf|resp total t e Hget Hlen Hsize Hloop
                    |resp total t Hget Hlen Hsize Hloop].
  - exists [], [error_signal ident msg]. split; [reflexivity|]. right. right. eauto.
  - exists [], (events_of (completion self env 2)). split.
    + rewrite events_of_app. simpl. rewrite app_nil_r. reflexivity.
    + destruct (Hcomp 2%nat) as [->| ->]; auto.
  - exists [], [error_signal ident msg]. split; [reflexivity|]. right. right. eauto.
  - exists [], (events_of (completion self env 3)). split.
    + rewrite events_of_app. simpl. rewrite app_nil_r. reflexivity.
    + destruct (Hcomp 3%nat) as [->| ->]; auto.
  - destruct (loop_run_events self env _ _ _ _ _ Hloop) as [ps Hps].
    change (events_of (AOpen path :: t)) with (events_of t). rewrite Hps.
    destruct e as [msg|msg]; exists ps, [error_signal ident msg];
      (split; [reflexivity|right; right; eauto]).
  - destruct (loop_run_events self env _ _ _ _ _ Hloop) as [ps Hps].
    change (events_of (AOpen path :: t ++ completion self env (S (length t))))
      with (events_of (t ++ completion self env (S (length t)))).
    rewrite events_of_app, Hps. simpl handler_steps. simpl events_of at 2.
    rewrite app_nil_r.
    exists ps, (events_of (completion self env (S (length t)))). split; [reflexivity|].
    destruct (Hcomp (S (length t))) as [->| ->]; auto.
Qed.

End WorkerData.

(** * What the widget shows after a run *)

Section WidgetAfterRun.

Variable th : DownloadThread.t.
Variable env : environment.
Variable fs0 : gmap string bytes.
Variable w : DownloadWidget.t.

Local Abbreviation ident := (DownloadThread.download_id th).

Lemma deliver_all_progress (ps : list Z) :
  forall v : DownloadWidget.t,
    let v' := deliver_all (map (progress_signal ident) ps) v in
    DownloadWidget.download_id v' = DownloadWidget.download_id v /\
    DownloadWidget.is_started v' = DownloadWidget.is_started v /\
    DownloadWidget.is_finished v' = DownloadWidget.is_finished v /\
    DownloadWidget.status_label v' = DownloadWidget.status_label v /\
    DownloadWidget.interrupt_button v' = DownloadWidget.interrupt_button v.
Proof.
  induction ps as [|p ps IH]; intros v; [cbn; auto|].
  cbn [map deliver_all fold_left]. specialize (IH (DownloadWidget.handle (progress_signal ident p) v)).
  cbn zeta in IH. unfold deliver_all in IH.
  destruct IH as (H1 & H2 & H3 & H4 & H5). rewrite H1, H2, H3, H4, H5.
  unfold DownloadWidget.handle, DownloadWidget.update_progress.
  destruct (String.eqb ident (DownloadWidget.download_id v)); cbn; auto.
Qed.

Lemma error_not_in_progress (ps : list Z) (msg : string) :
  ~ In (error_signal ident msg) (map (progress_signal ident) ps).
Proof. induction ps; simpl; intuition discriminate. Qed.

(** X13.  The widget of a worker whose run reports completion ends up finished:
    once the events of the run have reached its slots, it shows
    "Complete!", a full progress bar and a disabled interrupt button. *)
Theorem finished_run_shows_complete :
  DownloadWidget.download_id w = ident ->
  In (finished_signal ident) (DownloadThread.emitted th env fs0) ->
  let w' := deliver_all (DownloadThread.emitted th env fs0) w in
  DownloadWidget.is_finished w' = true /\
  DownloadWidget.status_label w' = "Complete!" /\
  DownloadWidget.progress_bar w' = 100 /\
  DownloadWidget.interrupt_button w' = false /\
  DownloadWidget.is_started w' = DownloadWidget.is_started w.
Proof.
  intros Hid Hin w'. subst w'.
  destruct (emitted_shape th env fs0) as (ps & tl & Hev & Htl). rewrite Hev in *.
  apply in_app_or in Hin.
  destruct Hin as [Hin|Hin]; [exfalso; eapply finished_not_in_progress; eauto|].
  assert (tl = [finished_signal ident]) as ->.
  { destruct Htl as [->|[->|[msg ->]]]; [contradiction|reflexivity|].
    simpl in Hin. intuition discriminate. }
  unfold deliver_all. rewrite fold_left_app. cbn [fold_left].
  fold (deliver_all (map (progress_signal ident) ps) w).
  destruct (deliver_all_progress ps w) as (H1 & H2 & H3 & H4 & H5). cbn zeta in *.
  set (v := deliver_all (map (progress_signal ident) ps) w) in *.
  unfold DownloadWidget.handle, DownloadWidget.download_finished.
  rewrite H1, Hid, String.eqb_refl. cbn. rewrite H2. auto.
Qed.

(** X14.  The widget of a worker whose run reports an error shows the message of
    the error and a disabled interrupt button; its [is_finished] flag is
    left as it was. *)
Theorem failed_run_shows_error (msg : string) :
  DownloadWidget.download_id w = ident ->
  In (error_signal ident msg) (DownloadThread.emitted th env fs0) ->
  let w' := deliver_all (DownloadThread.emitted th env fs0) w in
  DownloadWidget.status_label w' = "Error: " ++ msg /\
  DownloadWidget.interrupt_button w' = false /\
  DownloadWidget.is_finished w' = DownloadWidget.is_finished w /\
  DownloadWidget.is_started w' = DownloadWidget.is_started w.
Proof.
  intros Hid Hin w'. subst w'.
  destruct (emitted_shape th env fs0) as (ps & tl & Hev & Htl). rewrite Hev in *.
  apply in_app_or in Hin.
  destruct Hin as [Hin|Hin]; [exfalso; eapply error_not_in_progress; eauto|].
  assert (tl = [error_signal ident msg]) as ->.
  { destruct Htl as [->|[->|[msg' ->]]]; [contradiction| |].
    - simpl in Hin. intuition discriminate.
    - simpl in Hin. destruct Hin as [Hin|[]]. rewrite Hin. reflexivity. }
  unfold deliver_all. rewrite fold_left_app. cbn [fold_left].
  fold (deliver_all (map (progress_signal ident) ps) w).
  destruct (deliver_all_progress ps w) as (H1 & H2 & H3 & H4 & H5). cbn zeta in *.
  set (v := deliver_all (map (progress_signal ident) ps) w) in *.
  unfold DownloadWidget.handle, DownloadWidget.download_error.
  rewrite H1, Hid, String.eqb_refl. cbn. rewrite H2, H3. auto.
Qed.

End WidgetAfterRun.

(** * Invariants of the registry *)

Section RegistryInvariants.

Import DownloaderApp.

Lemma session_snoc (cs : list command) (c : command) :
  session (cs ++ [c]) = exec c (session cs).
Proof. unfold session. rewrite fold_left_app. reflexivity. Qed.

Lemma session_invariant (P : DownloaderApp.t -> Prop) :
  P init -> (forall c app, P app -> P (exec c app)) -> forall cs, P (session cs).
Proof.
  intros H0 Hs cs. induction cs as [|c cs IH] using rev_ind; [exact H0|].
  rewrite session_snoc. auto.
Qed.

Lemma nth_error_is_lookup {A} (l : list A) (i : nat) : nth_error l i = l !! i.
Proof. revert i. induction l as [|x l IH]; intros [|i]; simpl; auto. Qed.

Lemma advances_refl (w : DownloadWidget.t) : advances w w.
Proof. unfold advances. auto. Qed.

Lemma advances_start_download (w : DownloadWidget.t) :
  advances w (DownloadWidget.start_download w).
Proof.
  unfold advances, DownloadWidget.start_download, DownloadWidget.interrupt_requested.
  destruct w as [u p [th|] s f i l b e st]; destruct s; cbn; auto 10.
Qed.

Lemma advances_start_if_idle (w : DownloadWidget.t) : advances w (start_if_idle w).
Proof.
  unfold start_if_idle. destruct (negb _); [apply advances_start_download|apply advances_refl].
Qed.

Lemma advances_interrupt_download (w : DownloadWidget.t) :
  advances w (DownloadWidget.interrupt_download w).
Proof.
  unfold advances, DownloadWidget.interrupt_download, DownloadWidget.interrupt_requested.
  destruct w as [u p [th|] s f i l b e st]; destruct s, f; cbn; auto 10.
Qed.

Lemma advances_handle (e : event) (w : DownloadWidget.t) :
  advances w (DownloadWidget.handle e w).
Proof.
  unfold advances, DownloadWidget.handle, DownloadWidget.update_progress,
    DownloadWidget.download_finished, DownloadWidget.download_error,
    DownloadWidget.interrupt_requested.
  destruct e as [id q|id|id msg]; destruct (String.eqb id (DownloadWidget.download_id w));
    cbn; auto 10.
Qed.

Lemma advances_insert (l : list DownloadWidget.t) (j i : nat) (v w w' : DownloadWidget.t) :
  l !! j = Some v -> l !! i = Some w -> <[j := DownloadWidget.interrupt_download v]> l !! i = Some w' ->
  advances w w'.
Proof.
  intros Hj Hi H. apply list_lookup_insert_Some in H.
  destruct H as [(-> & <- & _)|[_ H]].
  - rewrite Hj in Hi. injection Hi as ->. apply advances_interrupt_download.
  - rewrite Hi in H. injection H as ->. apply advances_refl.
Qed.

(** X15.  No command takes a download back: a download that stays in the list
    keeps its identifier and its destination, and none of its flags
    [is_started], [is_finished] and [_is_interrupted] is ever reset. *)
Theorem commands_never_reset_a_download (c : command) (app : t) (i : nat)
    (w w' : DownloadWidget.t) :
  downloads app !! i = Some w ->
  downloads (exec c app) !! i = Some w' ->
  advances w w'.
Proof.
  intros Hi H. destruct c as [text|uuid| | |j|reply|j e]; cbn in H.
  - rewrite Hi in H. injection H as ->. apply advances_refl.
  - unfold add_download in H. destruct (Py.falsy (Py.strip (url_input app))).
    + rewrite Hi in H. injection H as ->. apply advances_refl.
    + cbn in H. rewrite lookup_app_l in H by (eapply lookup_lt_Some; eauto).
      rewrite Hi in H. injection H as ->. apply advances_refl.
  - rewrite list_lookup_fmap, Hi in H. injection H as <-. apply (advances_start_if_idle w).
  - rewrite list_lookup_fmap, Hi in H. injection H as <-.
    destruct (_ && _); [apply advances_interrupt_download|apply advances_refl].
  - destruct (downloads app !! j) as [v|] eqn:Hj.
    + exact (advances_insert _ _ _ _ _ _ Hj Hi H).
    + rewrite Hi in H. injection H as ->. apply advances_refl.
  - unfold clear_downloads in H. destruct (downloads app) as [|d ds] eqn:E.
    + rewrite E in H. rewrite Hi in H. injection H as ->. apply advances_refl.
    + destruct reply; cbn in H; [discriminate|].
      rewrite E, Hi in H. injection H as ->. apply advances_refl.
  - rewrite nth_error_is_lookup in H. destruct (downloads app !! j) as [v|] eqn:Hj.
    + apply list_lookup_insert_Some in H. destruct H as [(-> & <- & _)|[_ H]].
      * rewrite Hj in Hi. injection Hi as ->. apply advances_handle.
      * rewrite Hi in H. injection H as ->. apply advances_refl.
    + rewrite Hi in H. injection H as ->. apply advances_refl.
Qed.

Lemma layout_of_ids (ds ds' : list DownloadWidget.t) :
  map DownloadWidget.download_id ds = map DownloadWidget.download_id ds' ->
  layout_of ds = layout_of ds'.
Proof.
  intros H. unfold layout_of.
  rewrite <- !(map_map DownloadWidget.download_id Item), H. reflexivity.
Qed.

Lemma ids_map (f : DownloadWidget.t -> DownloadWidget.t) (ds : list DownloadWidget.t) :
  (forall w, advances w (f w)) ->
  map DownloadWidget.download_id (map f ds) = map DownloadWidget.download_id ds.
Proof.
  intros Hf. rewrite map_map. apply map_ext. intros w. apply (Hf w).
Qed.

Lemma ids_insert (ds : list DownloadWidget.t) (i : nat) (w w' : DownloadWidget.t) :
  ds !! i = Some w -> advances w w' ->
  map DownloadWidget.download_id (<[i := w']> ds) = map DownloadWidget.download_id ds.
Proof.
  intros Hi [Hid _].
  change (map DownloadWidget.download_id (<[i := w']> ds))
    with (DownloadWidget.download_id <$> <[i := w']> ds).
  rewrite list_fmap_insert, Hid. apply list_insert_id.
  rewrite list_lookup_fmap, Hi. reflexivity.
Qed.

Lemma insertWidget_layout_of (ds : list DownloadWidget.t) (w : DownloadWidget.t) :
  insertWidget (length ds) w (layout_of ds) = layout_of (ds ++ [w]).
Proof.
  unfold insertWidget, layout_of.
  assert (Hn : length ds = length (map (fun w => Item (DownloadWidget.download_id w)) ds))
    by (rewrite length_map; reflexivity).
  rewrite Hn at 1 2.
  rewrite firstn_app, Nat.sub_diag, firstn_all, firstn_O, app_nil_r.
  rewrite skipn_app, Nat.sub_diag, skipn_all, skipn_O.
  rewrite map_app, <- app_assoc. reflexivity.
Qed.

Lemma removeWidget_all (ds : list DownloadWidget.t) :
  fold_left (fun l download => removeWidget download l) ds (layout_of ds) = [Stretch].
Proof.
  induction ds as [|w ds IH]; [reflexivity|].
  cbn [fold_left]. change (layout_of (w :: ds)) with (Item (DownloadWidget.download_id w) :: layout_of ds).
  cbn [removeWidget]. rewrite String.eqb_refl. exact IH.
Qed.

Lemma exec_layout (c : command) (app : t) :
  downloads_layout app = layout_of (downloads app) ->
  downloads_layout (exec c app) = layout_of (downloads (exec c app)).
Proof.
  intros H. destruct c as [text|uuid| | |j|reply|j e]; cbn.
  - exact H.
  - unfold add_download. destruct (Py.falsy (Py.strip (url_input app))); [exact H|].
    cbn. rewrite H. apply insertWidget_layout_of.
  - rewrite H. apply layout_of_ids. symmetry. apply ids_map. apply advances_start_if_idle.
  - rewrite H. apply layout_of_ids. symmetry. apply ids_map. intros w.
    destruct (_ && _); [apply advances_interrupt_download|apply advances_refl].
  - rewrite H. destruct (downloads app !! j) as [v|] eqn:Hj; [|reflexivity].
    apply layout_of_ids. symmetry. eapply ids_insert; [exact Hj|].
    apply advances_interrupt_download.
  - unfold clear_downloads. destruct (downloads app) as [|d ds] eqn:E.
    + rewrite H, E. reflexivity.
    + destruct reply; cbn; [|rewrite H, E; reflexivity].
      rewrite H, E.
      erewrite layout_of_ids; [apply removeWidget_all|].
      symmetry. apply ids_map. intros w.
      destruct (_ && _); [apply advances_interrupt_download|apply advances_refl].
  - rewrite H, nth_error_is_lookup. destruct (downloads app !! j) as [v|] eqn:Hj; [|reflexivity].
    apply layout_of_ids. symmetry. eapply ids_insert; [exact Hj|].
    apply advances_handle.
Qed.

(** X20.  Whatever the user does and whatever the workers report, the layout
    mirrors the list of downloads: one item per download, in the order of
    the list, and the stretch last. *)
Theorem layout_mirrors_downloads (cs : list command) :
  downloads_layout (session cs) = layout_of (downloads (session cs)).
Proof.
  apply (session_invariant (fun app => downloads_layout app = layout_of (downloads app))).
  - reflexivity.
  - intros c app. apply exec_layout.
Qed.

(** X17.  A second [interrupt_all_downloads] changes nothing. *)
Theorem interrupt_all_downloads_idempotent (app : t) :
  interrupt_all_downloads (interrupt_all_downloads app) = interrupt_all_downloads app.
Proof.
  unfold interrupt_all_downloads, with_downloads. cbn. f_equal.
  rewrite map_map. apply map_ext. intros w.
  unfold DownloadWidget.interrupt_download.
  destruct w as [u p [th|] s f i l b e st]; destruct s, f; reflexivity.
Qed.

Lemma session_started_once (cs : list command) :
  Forall started_once (downloads (session cs)).
Proof.
  apply (session_invariant (fun app => Forall started_once (downloads app))).
  - constructor.
  - intros c app. apply exec_started_once.
Qed.

(** X18.  After [start_all_downloads], in any session, every download of the
    list is started. *)
Theorem start_all_downloads_starts_all (cs : list command) :
  Forall (fun w => DownloadWidget.is_started w = true)
         (downloads (start_all_downloads (session cs))).
Proof.
  unfold start_all_downloads, with_downloads. cbn.
  apply Forall_fmap. eapply Forall_impl; [apply session_started_once|].
  intros w [Ht _]. cbn. destruct (DownloadWidget.is_started w) eqn:E; cbn; [exact E|].
  apply start_download_is_started. exact Ht.
Qed.

Lemma has_char_cons (ch c : ascii) (s : string) :
  has_char ch (String c s) = Ascii.eqb ch c || has_char ch s.
Proof. reflexivity. Qed.

Lemma basename_no_slash (p : string) : has_char "/" (Py.basename p) = false.
Proof.
  induction p as [|c p IH]; [reflexivity|]. cbn [Py.basename].
  destruct (Ascii.eqb c "/") eqn:E; [exact IH|].
  destruct (existsb (Ascii.eqb "/"%char) (list_ascii_of_string p)) eqn:E2; [exact IH|].
  rewrite has_char_cons, Ascii.eqb_sym, E. exact E2.
Qed.

Lemma basename_chars (ch : ascii) (p : string) :
  has_char ch p = false -> has_char ch (Py.basename p) = false.
Proof.
  induction p as [|c p IH]; [auto|]. intros H. pose proof H as H'.
  rewrite has_char_cons in H'. apply orb_false_elim in H'. destruct H' as [_ Hp].
  cbn [Py.basename].
  destruct (Ascii.eqb c "/"); [auto|].
  destruct (existsb (Ascii.eqb "/"%char) (list_ascii_of_string p)); auto.
Qed.

Lemma split_head_no_sep (sep : ascii) (s : string) :
  has_char sep (Py.split_head sep s) = false.
Proof.
  induction s as [|c s IH]; [reflexivity|]. cbn [Py.split_head].
  destruct (Ascii.eqb c sep) eqn:E; [reflexivity|].
  rewrite has_char_cons, Ascii.eqb_sym, E. exact IH.
Qed.

Lemma string_of_uint_chars (ch : ascii) (d : Decimal.uint) :
  ch = "/"%char \/ ch = "?"%char ->
  has_char ch (NilEmpty.string_of_uint d) = false.
Proof.
  intros H. induction d; cbn [NilEmpty.string_of_uint]; [reflexivity|..];
    rewrite has_char_cons, IHd; destruct H as [-> | ->]; reflexivity.
Qed.

Lemma default_name_plain (n : nat) : plain_name ("download_" ++ Py.str_of_nat n).
Proof.
  unfold plain_name, Py.str_of_nat. split; [discriminate|].
  split; cbv [String.append]; rewrite !has_char_cons, string_of_uint_chars by auto;
    reflexivity.
Qed.

Lemma filename_plain (url : string) (n : nat) :
  plain_name (if Py.falsy (Py.basename (Py.split_head "?" url))
              then "download_" ++ Py.str_of_nat n
              else Py.basename (Py.split_head "?" url)).
Proof.
  destruct (Py.falsy (Py.basename (Py.split_head "?" url))) eqn:E.
  - apply default_name_plain.
  - split; [|split].
    + intros H. rewrite H in E. discriminate.
    + apply basename_no_slash.
    + apply basename_chars. apply split_head_no_sep.
Qed.

Lemma writes_plain_file_advances (f : DownloadWidget.t -> DownloadWidget.t) :
  (f = start_if_idle \/ f = DownloadWidget.interrupt_download \/
   exists e, f = DownloadWidget.handle e) ->
  forall w, writes_plain_file w -> writes_plain_file (f w).
Proof.
  intros Hf w (Hp & th & Ht & Hs & Hi).
  destruct w as [u p [th'|] s fi i l b e st]; [|discriminate].
  cbn in *. injection Ht as ->.
  destruct Hf as [->|[->|[ev ->]]].
  - unfold start_if_idle, DownloadWidget.start_download. cbn.
    destruct s; cbn; (split; [exact Hp|]); eexists; cbn; eauto.
  - unfold DownloadWidget.interrupt_download. cbn.
    destruct (s && negb fi); cbn; (split; [exact Hp|]); eexists; cbn; eauto.
  - unfold DownloadWidget.handle, DownloadWidget.update_progress,
      DownloadWidget.download_finished, DownloadWidget.download_error.
    destruct ev as [id q|id|id msg]; cbn; destruct (String.eqb id i);
      cbn; (split; [exact Hp|]); eexists; cbn; eauto.
Qed.

Lemma exec_writes_plain_file (c : command) (app : t) :
  Forall writes_plain_file (downloads app) ->
  Forall writes_plain_file (downloads (exec c app)).
Proof.
  intros H. destruct c as [text|uuid| | |j|reply|j e]; cbn.
  - exact H.
  - unfold add_download. destruct (Py.falsy (Py.strip (url_input app))); [exact H|].
    cbn. apply Forall_app. split; [exact H|].
    constructor; [|constructor]. split; [apply filename_plain|].
    eexists. cbn. eauto.
  - apply Forall_fmap. eapply Forall_impl; [exact H|].
    apply (writes_plain_file_advances start_if_idle). auto.
  - apply Forall_fmap. eapply Forall_impl; [exact H|]. intros w Hw. cbn.
    destruct (_ && _); [|exact Hw].
    apply (writes_plain_file_advances DownloadWidget.interrupt_download); auto.
  - destruct (downloads app !! j) as [v|] eqn:Hj; [|exact H].
    apply Forall_insert; [exact H|].
    apply (writes_plain_file_advances DownloadWidget.interrupt_download); auto.
    eapply Forall_lookup_1; eauto.
  - unfold clear_downloads. destruct (downloads app) eqn:E; [rewrite E; constructor|].
    destruct reply; cbn; [constructor|]. rewrite E. exact H.
  - rewrite nth_error_is_lookup. destruct (downloads app !! j) as [v|] eqn:Hj; [|exact H].
    apply Forall_insert; [exact H|].
    apply (writes_plain_file_advances (DownloadWidget.handle e)); eauto.
    eapply Forall_lookup_1; eauto.
Qed.

(** X21.  Every download of any session writes to a plain file of the working
    directory: the destination is not empty and holds neither a slash nor a
    question mark, and the thread of the widget has the destination and the
    identifier of the widget. *)
Theorem downloads_write_plain_files (cs : list command) :
  Forall writes_plain_file (downloads (session cs)).
Proof.
  apply (session_invariant (fun app => Forall writes_plain_file (downloads app))).
  - constructor.
  - intros c app. apply exec_writes_plain_file.
Qed.

End RegistryInvariants.

(** * The further properties at concrete runs and sessions *)

Lemma finished_file_holds_body_witness :
  fs (DownloadThread.execute worker1 (served two_chunks None) ∅) !! "file.bin"
  = Some (concat (payload (body two_chunks))) /\
  intact (body two_chunks) = true.
Proof.
  apply (finished_file_holds_body worker1 (served two_chunks None) ∅ two_chunks).
  - reflexivity.
  - vm_compute. auto.
Defined.

Lemma file_is_prefix_of_body_witness :
  exists rest, concat (payload (body two_chunks)) = (zeros 500 ++ rest)%list.
Proof.
  apply (file_is_prefix_of_body worker1 (disk_failure two_chunks 1) ∅ two_chunks (zeros 500)).
  - reflexivity.
  - vm_compute. reflexivity.
  - vm_compute. reflexivity.
Defined.


Lemma unopened_run_reports_one_error_witness :
  fs (DownloadThread.execute worker1 (served not_found None) ∅) = ∅ /\
  exists msg, trace (DownloadThread.execute worker1 (served not_found None) ∅)
              = [AEmit (error_signal "id-1" msg)].
Proof.
  apply (unopened_run_reports_one_error worker1 (served not_found None) ∅).
  vm_compute. reflexivity.
Defined.

Lemma fault_before_open_creates_no_file_witness :
  fs (DownloadThread.execute worker1
        (served (Response None (HeaderInvalid "12x") [Data (zeros 12)]) None) ∅) = ∅ /\
  exists msg,
    trace (DownloadThread.execute worker1
             (served (Response None (HeaderInvalid "12x") [Data (zeros 12)]) None) ∅)
    = [AEmit (error_signal "id-1" msg)].
Proof.
  apply (fault_before_open_creates_no_file worker1
           (served (Response None (HeaderInvalid "12x") [Data (zeros 12)]) None) ∅).
  right. left. eexists. split; [reflexivity|]. right. exists "12x". reflexivity.
Defined.


Lemma interrupted_before_start_writes_nothing_witness :
  writes_of (trace (DownloadThread.execute (DownloadThread.interrupt worker1)
                      (served two_chunks None) ∅)) = [] /\
  ~ In (finished_signal "id-1")
       (DownloadThread.emitted (DownloadThread.interrupt worker1) (served two_chunks None) ∅).
Proof.
  apply (interrupted_before_start_writes_nothing (DownloadThread.interrupt worker1)
           (served two_chunks None) ∅).
  reflexivity.
Defined.

Lemma unknown_total_emits_no_progress_witness :
  progress_values (DownloadThread.emitted worker1 (served unknown_length None) ∅) = [].
Proof.
  apply (unknown_total_emits_no_progress worker1 (served unknown_length None) ∅
           unknown_length).
  - reflexivity.
  - left. reflexivity.
Defined.

Lemma every_write_is_reported_witness :
  length (progress_values (DownloadThread.emitted worker1 (disk_failure two_chunks 1) ∅))
  = length (writes_of (trace (DownloadThread.execute worker1 (disk_failure two_chunks 1) ∅))).
Proof.
  apply (every_write_is_reported worker1 (disk_failure two_chunks 1) ∅ two_chunks 1000).
  - reflexivity.
  - reflexivity.
  - vm_compute. split; reflexivity.
  - vm_compute. reflexivity.
Defined.

Lemma complete_download_ends_at_100_witness :
  last (progress_values (DownloadThread.emitted worker1 (served two_chunks None) ∅))
  = Some 100.
Proof.
  apply (complete_download_ends_at_100 worker1 (served two_chunks None) ∅ two_chunks 1000).
  - reflexivity.
  - reflexivity.
  - vm_compute. split; reflexivity.
  - vm_compute. reflexivity.
  - vm_compute. auto.
Defined.

Lemma progress_within_bar_range_witness :
  progress_values (DownloadThread.emitted worker1 (served two_chunks None) ∅) !! 0%nat
  = Some 50 /\
  0 <= 50 <= 100.
Proof.
  split; [vm_compute; reflexivity|].
  apply (progress_within_bar_range worker1 (served two_chunks None) ∅ two_chunks 1000 0%nat 50).
  - reflexivity.
  - reflexivity.
  - vm_compute. split; reflexivity.
  - vm_compute. discriminate.
  - vm_compute. reflexivity.
Defined.

Lemma percent_end_points_witness :
  DownloadThread.percent 0 1000 = Some 0 /\ DownloadThread.percent 1000 1000 = Some 100.
Proof.
  apply (percent_end_points 1000). vm_compute. split; reflexivity.
Defined.

Lemma finished_run_shows_complete_witness :
  let w := DownloadWidget.start_download
             (DownloadWidget.init "http://example.test/file.bin" "file.bin" "id-1") in
  let w' := deliver_all (DownloadThread.emitted worker1 (served two_chunks None) ∅) w in
  DownloadWidget.is_finished w' = true /\
  DownloadWidget.status_label w' = "Complete!" /\
  DownloadWidget.progress_bar w' = 100 /\
  DownloadWidget.interrupt_button w' = false /\
  DownloadWidget.is_started w' = DownloadWidget.is_started w.
Proof.
  intros w.
  apply (finished_run_shows_complete worker1 (served two_chunks None) ∅ w).
  - reflexivity.
  - vm_compute. auto.
Defined.

Lemma failed_run_shows_error_witness :
  let w := DownloadWidget.start_download
             (DownloadWidget.init "http://example.test/file.bin" "file.bin" "id-1") in
  let w' := deliver_all (DownloadThread.emitted worker1 (disk_failure two_chunks 1) ∅) w in
  DownloadWidget.status_label w' = "Error: [Errno 28] No space left on device" /\
  DownloadWidget.interrupt_button w' = false /\
  DownloadWidget.is_finished w' = DownloadWidget.is_finished w /\
  DownloadWidget.is_started w' = DownloadWidget.is_started w.
Proof.
  intros w.
  apply (failed_run_shows_error worker1 (disk_failure two_chunks 1) ∅ w
           "[Errno 28] No space left on device").
  - reflexivity.
  - vm_compute. auto.
Defined.

Lemma commands_never_reset_a_download_witness :
  let app := DownloaderApp.start_all_downloads
               (DownloaderApp.add_download "id-1"
                  (DownloaderApp.set_url_input "http://h/f" DownloaderApp.init)) in
  exists w w',
    DownloaderApp.downloads app !! 0%nat = Some w /\
    DownloaderApp.downloads (exec (Signal 0 (finished_signal "id-1")) app) !! 0%nat = Some w' /\
    DownloadWidget.is_finished w = false /\
    DownloadWidget.is_finished w' = true /\
    advances w w'.
Proof.
  intros app. do 2 eexists.
  split; [reflexivity|]. split; [reflexivity|]. split; [reflexivity|]. split; [reflexivity|].
  apply (commands_never_reset_a_download (Signal 0 (finished_signal "id-1")) app 0%nat);
    reflexivity.
Defined.

Lemma interrupt_all_downloads_frame_witness :
  let app := DownloaderApp.add_download "id-1"
               (DownloaderApp.set_url_input "http://h/f" DownloaderApp.init) in
  exists w,
    DownloaderApp.downloads app !! 0%nat = Some w /\
    DownloaderApp.downloads (DownloaderApp.interrupt_all_downloads app) !! 0%nat = Some w.
Proof.
  intros app. eexists. split; [reflexivity|].
  apply (interrupt_all_downloads_frame app 0%nat); [reflexivity|].
  left. reflexivity.
Defined.
